(** * Request-logging middleware and endpoint probe script

    A shallow embedding of [middleware.py] (the [LoggingMiddleware.dispatch]
    hook) and of [test_manual.py] (the [test_summaries] / [main] probe
    script), with the properties of both established against the embedding.

    Python programs are embedded as finite trees of environment
    interactions ([prog]): every call that leaves the function under study
    ([time.time()], [call_next(request)], [print(...)],
    [requests.post(...)]) is a node of the tree, answered by the
    environment either with a value or with a raised exception.
    [try]/[except] is a node of its own.  An interpreter runs a tree
    against an arbitrary environment, threading the world and recording the
    interactions in order. *)

From Stdlib Require Import ZArith NArith List String Ascii Bool Lia.
From Stdlib Require Import SpecFloat DecimalString DecimalPos QArith Qabs.
From stdpp Require Import gmap.
Import ListNotations.

Set Warnings "-register-all".
#[local] Open Scope Z_scope.

(** ** Python values *)

(** A Python [str] is a sequence of Unicode code points. *)
Definition str : Type := list N.

(** Decoding of the UTF-8 bytes of a source literal into code points (the
    source files are UTF-8, and two of the literals of [test_manual.py]
    start with a non-ASCII mark). *)
Fixpoint utf8_decode (bs : list N) : str :=
  match bs with
  | [] => []
  | b0 :: rest =>
      if (b0 <? 128)%N then b0 :: utf8_decode rest
      else if (b0 <? 224)%N then
        match rest with
        | b1 :: rest1 =>
            (N.lor (N.shiftl (N.land b0 31) 6) (N.land b1 63))
              :: utf8_decode rest1
        | [] => [b0]
        end
      else if (b0 <? 240)%N then
        match rest with
        | b1 :: b2 :: rest2 =>
            (N.lor (N.shiftl (N.land b0 15) 12)
               (N.lor (N.shiftl (N.land b1 63) 6) (N.land b2 63)))
              :: utf8_decode rest2
        | _ => [b0]
        end
      else
        match rest with
        | b1 :: b2 :: b3 :: rest3 =>
            (N.lor (N.shiftl (N.land b0 7) 18)
               (N.lor (N.shiftl (N.land b1 63) 12)
                  (N.lor (N.shiftl (N.land b2 63) 6) (N.land b3 63))))
              :: utf8_decode rest3
        | _ => [b0]
        end
  end.

(** [py "..."] is the Python string written as that literal. *)
Definition py (s : string) : str :=
  utf8_decode (map N_of_ascii (list_ascii_of_string s)).

(** [str(n)] for an [int]. *)
Definition str_of_Z (z : Z) : str :=
  py (NilZero.string_of_int (Z.to_int z)).

(** [c * n] for a one-character string [c]. *)
Definition str_repeat (c : string) (n : nat) : str :=
  concat (repeat (py c) n).

(** [str.isspace] on one code point: the Unicode white space characters. *)
Definition isspace (c : N) : bool :=
  ((9 <=? c) && (c <=? 13) || (28 <=? c) && (c <=? 32)
   || (c =? 133) || (c =? 160) || (c =? 5760)
   || (8192 <=? c) && (c <=? 8202)
   || (c =? 8232) || (c =? 8233) || (c =? 8239) || (c =? 8287)
   || (c =? 12288))%N.

(** [s.split()]: the maximal runs of non-space characters, in order.  [cur]
    holds the run being read, last character first. *)
Fixpoint split_from (cur : str) (s : str) : list str :=
  match s with
  | [] => match cur with [] => [] | _ => [rev cur] end
  | c :: s' =>
      if isspace c then
        match cur with
        | [] => split_from [] s'
        | _ => rev cur :: split_from [] s'
        end
      else split_from (c :: cur) s'
  end.

Definition split (s : str) : list str := split_from [] s.

(** [len(l)] *)
Definition len {A : Type} (l : list A) : Z := Z.of_nat (length l).

(** [line.startswith(prefix)] *)
Fixpoint startswith (prefix line : str) : bool :=
  match prefix, line with
  | [], _ => true
  | p :: prefix', c :: line' => (p =? c)%N && startswith prefix' line'
  | _ :: _, [] => false
  end.

(** Python's [float] is IEEE 754 binary64. *)
Definition float : Type := spec_float.
Definition prec : Z := 53.
Definition emax : Z := 1024.

Definition float_sub : float -> float -> float := SFsub prec emax.
Definition float_mul : float -> float -> float := SFmul prec emax.
Definition float_leb : float -> float -> bool := SFleb.

(** Conversion of an [int] operand to [float] (exact for the constants used
    here). *)
Definition float_of_Z (z : Z) : float := binary_normalize prec emax z 0 false.

Definition is_finite (x : float) : bool :=
  match x with
  | S754_zero _ | S754_finite _ _ _ => true
  | _ => false
  end.

(** A finite binary64 number in canonical form: what [time.time()]
    returns. *)
Definition timestamp_ok (x : float) : bool :=
  is_finite x && valid_binary prec emax x.

(** Neither negative nor NaN (a zero of either sign counts). *)
Definition float_nonneg (x : float) : bool :=
  match x with
  | S754_zero _ => true
  | S754_infinity s | S754_finite s _ _ => negb s
  | S754_nan => false
  end.

(** The number [m * 2^e] a finite float stands for, with its sign; zero
    for the others. *)
Definition float_value (x : float) : Q :=
  match x with
  | S754_finite s m e =>
      let v := if 0 <=? e then inject_Z (Z.pos m * 2 ^ e)
               else Qmake (Z.pos m) (Z.to_pos (2 ^ (- e))) in
      if s then Qopp v else v
  | _ => inject_Z 0
  end.

(** ** Reading decimal numerals back *)

(** The value of a decimal digit character. *)
Definition digit_value (c : N) : option Z :=
  if ((48 <=? c) && (c <=? 57))%N then Some (Z.of_N c - 48) else None.

(** The number a string of decimal digits denotes, after the digits
    already read as [acc]; nothing if a character is not a digit. *)
Fixpoint read_digits (acc : Z) (s : str) : option Z :=
  match s with
  | [] => Some acc
  | c :: s' =>
      match digit_value c with
      | Some d => read_digits (10 * acc + d) s'
      | None => None
      end
  end.

(** The number of hundredths a numeral of the form [ddd.dd] denotes: at
    least one digit and no superfluous leading zero, a point and exactly
    two digits; nothing for any other string. *)
Definition read_unsigned_hundredths (s : str) : option Z :=
  match rev s with
  | low :: high :: 46%N :: int_part_rev =>
      match rev int_part_rev with
      | [] => None
      | 48%N :: _ :: _ => None
      | int_part => read_digits 0 (int_part ++ [high; low])
      end
  | _ => None
  end.

(** The same with an optional minus sign in front. *)
Definition read_hundredths (s : str) : option Z :=
  match s with
  | 45%N :: s' => option_map Z.opp (read_unsigned_hundredths s')
  | _ => read_unsigned_hundredths s
  end.

(** The number a [Decimal.uint] denotes after the digits [acc]. *)
Fixpoint uint_value (d : Decimal.uint) (acc : Z) : Z :=
  match d with
  | Decimal.Nil => acc
  | Decimal.D0 l => uint_value l (10 * acc)
  | Decimal.D1 l => uint_value l (10 * acc + 1)
  | Decimal.D2 l => uint_value l (10 * acc + 2)
  | Decimal.D3 l => uint_value l (10 * acc + 3)
  | Decimal.D4 l => uint_value l (10 * acc + 4)
  | Decimal.D5 l => uint_value l (10 * acc + 5)
  | Decimal.D6 l => uint_value l (10 * acc + 6)
  | Decimal.D7 l => uint_value l (10 * acc + 7)
  | Decimal.D8 l => uint_value l (10 * acc + 8)
  | Decimal.D9 l => uint_value l (10 * acc + 9)
  end.

(** [n] is the number of hundredths nearest to [x], the even one of the
    two when [x] lies half way between them. *)
Definition nearest_hundredths (x : Q) (n : Z) : Prop :=
  (Qabs (inject_Z n - inject_Z 100 * x) <= 1 # 2)%Q
  /\ ((Qabs (inject_Z n - inject_Z 100 * x) == 1 # 2)%Q -> Z.even n = true).

(** [|x| < 2^k], for a finite [x]. *)
Definition float_below (k : Z) (x : float) : bool :=
  match x with
  | S754_zero _ => true
  | S754_finite _ m e => Z.pos (digits2_pos m) + e <=? k
  | _ => false
  end.

(** ** What standard output cannot encode *)

(** A surrogate code point: UTF-8 has no encoding for it. *)
Definition is_surrogate (c : N) : bool := ((55296 <=? c) && (c <=? 57343))%N.

(** Whether [s.encode("utf-8")] succeeds. *)
Definition encodable (s : str) : bool := forallb (fun c => negb (is_surrogate c)) s.

Definition hex_digit (d : N) : N := (if d <? 10 then 48 + d else 87 + d)%N.

(** [c] as four lower-case hexadecimal digits. *)
Definition hex4 (c : N) : str :=
  [ hex_digit (c / 4096 mod 16); hex_digit (c / 256 mod 16);
    hex_digit (c / 16 mod 16); hex_digit (c mod 16) ]%N.

(** The number of surrogates [s] starts with. *)
Fixpoint surrogate_run (s : str) : nat :=
  match s with
  | c :: s' => if is_surrogate c then S (surrogate_run s') else O
  | [] => O
  end.

(** The text of the [UnicodeEncodeError] that encoding [s] raises: it
    names the first run of surrogates of [s], by its one character and its
    position, or by its first and last positions.  [pos] is the position of
    the head of [s]. *)
Fixpoint encode_error_from (pos : Z) (s : str) : str :=
  match s with
  | [] => []
  | c :: s' =>
      if is_surrogate c then
        match s' with
        | c' :: _ =>
            if is_surrogate c' then
              py "'utf-8' codec can't encode characters in position "
              ++ str_of_Z pos ++ py "-"
              ++ str_of_Z (pos + Z.of_nat (surrogate_run s'))
              ++ py ": surrogates not allowed"
            else
              py "'utf-8' codec can't encode character '\u" ++ hex4 c
              ++ py "' in position " ++ str_of_Z pos
              ++ py ": surrogates not allowed"
        | [] =>
            py "'utf-8' codec can't encode character '\u" ++ hex4 c
            ++ py "' in position " ++ str_of_Z pos
            ++ py ": surrogates not allowed"
        end
      else encode_error_from (pos + 1) s'
  end.

Definition encode_error_text (s : str) : str := encode_error_from 0 s.


(** ** Programs as interaction trees *)

Section Prog.
Context {Exn : Type} {E : Type -> Type}.

Inductive prog (A : Type) : Type :=
| Ret (a : A)
| Raise (e : Exn)
| Vis {X : Type} (ev : E X) (k : X -> prog A)
| TryExcept {B : Type} (body : prog B) (handler : Exn -> prog B)
            (k : B -> prog A).

Arguments Ret {A} a.
Arguments Raise {A} e.
Arguments Vis {A X} ev k.
Arguments TryExcept {A B} body handler k.

Fixpoint bind {A B : Type} (p : prog A) (f : A -> prog B) : prog B :=
  match p with
  | Ret a => f a
  | Raise e => Raise e
  | Vis ev k => Vis ev (fun x => bind (k x) f)
  | TryExcept body handler k =>
      TryExcept body handler (fun b => bind (k b) f)
  end.

Definition trigger {X : Type} (ev : E X) : prog X := Vis ev Ret.

(** [try: body except ...: handler] as a statement. *)
Definition try_except {B : Type} (body : prog B) (handler : Exn -> prog B)
  : prog B :=
  TryExcept body handler Ret.

(** One recorded interaction: the event performed. *)
Definition interaction : Type := { X : Type & E X }.

Section Run.
Context {World : Type}.
(** The environment: how each event is answered in a given world. *)
Variable handle : forall X, E X -> World -> (Exn + X) * World.

(** Result of a run: the outcome (exception or value), the final world,
    and the interactions in the order they were performed. *)
Definition run_result (A : Type) : Type :=
  ((Exn + A) * World * list interaction)%type.

Definition outcome {A : Type} (r : run_result A) : Exn + A := fst (fst r).
Definition final {A : Type} (r : run_result A) : World := snd (fst r).
Definition trace {A : Type} (r : run_result A) : list interaction := snd r.

Fixpoint run {A : Type} (p : prog A) (w : World) : run_result A :=
  match p with
  | Ret a => (inr a, w, [])
  | Raise e => (inl e, w, [])
  | Vis ev k =>
      match handle _ ev w with
      | (inl e, w') => (inl e, w', [@existT Type E _ ev])
      | (inr x, w') =>
          let '(o, w'', tr) := run (k x) w' in
          (o, w'', @existT Type E _ ev :: tr)
      end
  | TryExcept body handler k =>
      match run body w with
      | (inr b, w1, tr1) =>
          let '(o, w2, tr2) := run (k b) w1 in (o, w2, tr1 ++ tr2)
      | (inl e, w1, tr1) =>
          match run (handler e) w1 with
          | (inr b, w2, tr2) =>
              let '(o, w3, tr3) := run (k b) w2 in
              (o, w3, tr1 ++ tr2 ++ tr3)
          | (inl e', w2, tr2) => (inl e', w2, tr1 ++ tr2)
          end
      end
  end.
End Run.
End Prog.

Arguments prog : clear implicits.
Arguments Ret {Exn E A} a.
Arguments Raise {Exn E A} e.
Arguments Vis {Exn E A X} ev k.
Arguments TryExcept {Exn E A B} body handler k.
Arguments interaction : clear implicits.

Declare Scope prog_scope.
Delimit Scope prog_scope with prog.
Notation "x <- c ;; k" := (bind c (fun x => k))
  (at level 100, c at next level, right associativity) : prog_scope.
Notation "c ;; k" := (bind c (fun _ => k))
  (at level 100, k at level 200, right associativity) : prog_scope.

(** ** [middleware.py]: the timing interceptor *)

Module Middleware.

(** [request.url.path] *)
Record URL : Type := { path : str }.
Record Request : Type := { url : URL }.

(** A response as the interceptor sees it: the status code it reads and a
    body it never looks at. *)
Record Response : Type := { status_code : Z; body : list Byte.byte }.

(** The calls [dispatch] makes to its environment. *)
Inductive event : Type -> Type :=
| Time_time : event float
| Call_next (request : Request) : event Response
| Print_line (line : str) : event unit.

Section Dispatch.
Context {Exn : Type}.

Definition time_time : prog Exn event float := trigger Time_time.
Definition print (line : str) : prog Exn event unit :=
  trigger (Print_line line).

(** The continuation the host framework passes as [call_next]: awaiting
    it is one interaction with the rest of the pipeline. *)
Definition host_call_next (request : Request) : prog Exn event Response :=
  trigger (Call_next request).

(** *** Formatting with [:.2f] *)

Definition digit (d : Z) : N := Z.to_N (48 + d).

(** [n / d] rounded to the nearest integer, ties to even. *)
Definition round_half_even (n d : Z) : Z :=
  let q := n / d in
  let r := n mod d in
  match 2 * r ?= d with
  | Lt => q
  | Gt => q + 1
  | Eq => if Z.even q then q else q + 1
  end.

(** [m * 2^e * 100], correctly rounded to an integer. *)
Definition hundredths (m : positive) (e : Z) : Z :=
  if 0 <=? e then Z.pos m * 100 * 2 ^ e
  else round_half_even (Z.pos m * 100) (2 ^ (- e)).

(** The integer [n] of hundredths written with two decimals. *)
Definition fixed2 (n : Z) : str :=
  str_of_Z (n / 100) ++ py "." ++ [digit (n / 10 mod 10); digit (n mod 10)].

Definition sign_str (s : bool) : str := if s then py "-" else [].

(** [f"{x:.2f}"] *)
Definition format_2f (x : float) : str :=
  match x with
  | S754_nan => py "nan"
  | S754_infinity s => sign_str s ++ py "inf"
  | S754_zero s => sign_str s ++ fixed2 0
  | S754_finite s m e => sign_str s ++ fixed2 (hundredths m e)
  end.

(** *** [LoggingMiddleware.dispatch] *)

Definition dispatch (request : Request)
    (call_next : Request -> prog Exn event Response)
  : prog Exn event Response :=
  (let request_path := path (url request) in
   start_time <- time_time ;;
   response <- call_next request ;;
   now <- time_time ;;
   let execution_time_ms :=
     float_mul (float_sub now start_time) (float_of_Z 1000) in
   let status_code := status_code response in
   print (py "[LOG] Path: " ++ request_path ++ py " | "
          ++ py "Execution Time: " ++ format_2f execution_time_ms
          ++ py "ms | "
          ++ py "Status: " ++ str_of_Z status_code) ;;
   Ret response)%prog.

(** *** The environment of one invocation *)

(** The world: what has been printed so far, one entry per [print]
    call, and everything else ([W]), which the clock and the rest of
    the pipeline may read and change. *)
Record World {W : Type} : Type := { stdout : list str; env : W }.
Arguments World : clear implicits.

Section Env.
Context {W : Type}.
(** [time.time()]: the reading, and the world after it. *)
Variable clock : W -> float * W.
(** The rest of the pipeline behind [call_next]: it returns a
    response or raises, and may change the world in any way. *)
Variable pipeline : Request -> World W -> (Exn + Response) * World W.

Definition handle (X : Type) (ev : event X) (w : World W)
  : (Exn + X) * World W :=
  match ev in event X return (Exn + X) * World W with
  | Time_time =>
      let '(t, e) := clock (env w) in
      (inr t, {| stdout := stdout w; env := e |})
  | Call_next request => pipeline request w
  | Print_line line =>
      (inr tt, {| stdout := stdout w ++ [line]; env := env w |})
  end.

(** One invocation of the hook by the host framework. *)
Definition invoke (request : Request) (w : World W)
  : run_result (Exn := Exn) (E := event) (World := World W) Response :=
  run handle (dispatch request host_call_next) w.

(** The world in which the continuation is entered: the one left by the
    first clock reading. *)
Definition entered (w : World W) : World W :=
  {| stdout := stdout w; env := snd (clock (env w)) |}.
End Env.
End Dispatch.
Arguments World : clear implicits.

(** The requests with which the continuation was invoked during a run. *)
Definition calls_of (tr : list (interaction event)) : list Request :=
  flat_map (fun i : interaction event =>
              match projT2 i with
              | Call_next request => [request]
              | _ => []
              end) tr.

(** The records printed during a run. *)
Definition prints_of (tr : list (interaction event)) : list str :=
  flat_map (fun i : interaction event =>
              match projT2 i with
              | Print_line line => [line]
              | _ => []
              end) tr.

Definition ev {X : Type} (e : event X) : interaction event :=
  @existT Type event X e.

(** The log line format as the interface description words it:
    [[LOG] Path: <path> | Execution Time: <duration>ms | Status: <status_code>],
    the duration with the [.2f] format. *)
Definition spec_log_line (request_path : str) (duration : float)
    (status : Z) : str :=
  py "[LOG] Path: " ++ request_path ++ py " | Execution Time: "
  ++ format_2f duration ++ py "ms | Status: " ++ str_of_Z status.

Definition is_digit (c : N) : bool := ((48 <=? c) && (c <=? 57))%N.

(** A number written with exactly two decimals: an optional sign, at least
    one digit, a point, two digits. *)
Definition two_decimals (s : str) : bool :=
  let unsigned := match s with 45%N :: s' => s' | _ => s end in
  match rev unsigned with
  | d2 :: d1 :: 46%N :: int_part =>
      is_digit d2 && is_digit d1
      && negb (Nat.eqb (length int_part) 0) && forallb is_digit int_part
  | _ => false
  end.

End Middleware.

(** ** [test_manual.py]: the endpoint probe script *)

Module TestManual.

(** What [response.json()] can return. *)
Inductive pyvalue : Type :=
| PNone
| PBool (b : bool)
| PInt (z : Z)
| PFloat (x : float)
| PStr (s : str)
| PList (l : list pyvalue)
| PDict (d : gmap str pyvalue).

(** The exceptions at play, all of them instances of [Exception].
    [ConnectionError] stands for [requests.exceptions.ConnectionError]
    and its subclasses, [JSONDecodeError] for what [response.json()]
    raises on a body that is not JSON, [UnicodeEncodeError] for what
    [print] raises on a line that standard output cannot encode,
    [OtherException] for any other class the HTTP call may raise (a
    timeout, an invalid URL, ...). *)
Inductive exn : Type :=
| ConnectionError (msg : str)
| JSONDecodeError (msg : str)
| KeyError (key : str)
| TypeError (msg : str)
| AttributeError (msg : str)
| UnicodeEncodeError (msg : str)
| OtherException (msg : str).

(** [str(e)]; a [KeyError] shows the [repr] of its key (the keys
    subscripted in the script are plain identifiers). *)
Definition exn_str (e : exn) : str :=
  match e with
  | ConnectionError msg | JSONDecodeError msg | TypeError msg
  | AttributeError msg | UnicodeEncodeError msg | OtherException msg => msg
  | KeyError key => py "'" ++ key ++ py "'"
  end.

(** A received HTTP response: [status_code], [text], and what
    [json()] gives on it, the decoded body or the decoder's complaint. *)
Module Response.
Record t : Type := { status_code : Z; text : str; json : str + pyvalue }.
End Response.
Abbreviation Response := Response.t.

Inductive event : Type -> Type :=
| Requests_post (url : str) (json : pyvalue) (timeout : Z) : event Response
| Print_line (line : str) : event unit.

Definition requests_post (url : str) (json : pyvalue) (timeout : Z)
  : prog exn event Response :=
  trigger (Requests_post url json timeout).

Definition print (line : str) : prog exn event unit :=
  trigger (Print_line line).

(** [print] of a line that carries a value decoded from the body of the
    response (lines 34, 36 and 37).  A JSON string can hold a lone
    surrogate (the escape [\ud800] decodes to one), which standard output,
    UTF-8, cannot encode: [print] then raises [UnicodeEncodeError] before
    anything is written.  The other lines of the script are made of its own
    literals, of decimal numerals, of exception messages and of
    [response.text], which [requests] decodes from the bytes of the body,
    replacing what it cannot decode. *)
Definition print_data (line : str) : prog exn event unit :=
  if encodable line then print line
  else Raise (UnicodeEncodeError (encode_error_text line)).

(** [response.json()] *)
Definition response_json (response : Response) : prog exn event pyvalue :=
  match Response.json response with
  | inl msg => Raise (JSONDecodeError msg)
  | inr data => Ret data
  end.

Definition type_name (v : pyvalue) : str :=
  match v with
  | PNone => py "NoneType"
  | PBool _ => py "bool"
  | PInt _ => py "int"
  | PFloat _ => py "float"
  | PStr _ => py "str"
  | PList _ => py "list"
  | PDict _ => py "dict"
  end.

(** [data[key]] for a string key. *)
Definition getitem (data : pyvalue) (key : str) : prog exn event pyvalue :=
  match data with
  | PDict d =>
      match d !! key with
      | Some v => Ret v
      | None => Raise (KeyError key)
      end
  | PList _ =>
      Raise (TypeError (py "list indices must be integers or slices, not str"))
  | PStr _ =>
      Raise (TypeError (py "string indices must be integers, not 'str'"))
  | v =>
      Raise (TypeError (py "'" ++ type_name v
                        ++ py "' object is not subscriptable"))
  end.

(** [summary.split()]: only a [str] has the method. *)
Definition method_split (v : pyvalue) : prog exn event (list str) :=
  match v with
  | PStr s => Ret (split s)
  | v =>
      Raise (AttributeError (py "'" ++ type_name v
                             ++ py "' object has no attribute 'split'"))
  end.

Definition nl : str := [10%N].

Definition BASE_URL : str := py "http://localhost:8000".

Definition ev {X : Type} (e : event X) : interaction event :=
  @existT Type event X e.

(** The records printed during a run, and the HTTP calls made. *)
Definition prints_of (tr : list (interaction event)) : list str :=
  flat_map (fun i : interaction event =>
              match projT2 i with
              | Print_line line => [line]
              | _ => []
              end) tr.

Definition posts_of (tr : list (interaction event))
  : list (str * pyvalue * Z) :=
  flat_map (fun i : interaction event =>
              match projT2 i with
              | Requests_post url json timeout => [(url, json, timeout)]
              | _ => []
              end) tr.

(** The call the script makes for an input text. *)
Definition summaries_call (text : str) : str * pyvalue * Z :=
  (BASE_URL ++ py "/summaries", PDict {[ py "text" := PStr text ]}, 5).

(** The second line the [except ConnectionError] clause prints. *)
Definition remediation_hint : str :=
  py "   Make sure the server is running: uvicorn main:app --reload".

(** Whether [e] is handled by the [except Exception] clause of
    [test_summaries] rather than by its [except ConnectionError] clause. *)
Definition is_generic (e : exn) : bool :=
  match e with
  | ConnectionError _ => false
  | _ => true
  end.

Section Script.
(** [repr] of the decoded values that are neither [None], a [bool], an
    [int] nor a [str]: supplied by the Python runtime. *)
Variable repr : pyvalue -> str.

(** [f"{v}"] *)
Definition format_value (v : pyvalue) : str :=
  match v with
  | PStr s => s
  | PInt z => str_of_Z z
  | PNone => py "None"
  | PBool b => if b then py "True" else py "False"
  | v => repr v
  end.

Definition test_summaries (text description : str) : prog exn event unit :=
  (print (nl ++ str_repeat "=" 60) ;;
   print (py "Test: " ++ description) ;;
   print (str_repeat "=" 60) ;;
   print (py "Input text: " ++ text) ;;
   print (py "Input word count: " ++ str_of_Z (len (split text))) ;;
   try_except
     (response <- requests_post (BASE_URL ++ py "/summaries")
                    (PDict {[ py "text" := PStr text ]}) 5 ;;
      print (py "Status Code: " ++ str_of_Z (Response.status_code response)) ;;
      if Response.status_code response =? 200 then
        data <- response_json response ;;
        summary <- getitem data (py "summary") ;;
        words <- method_split summary ;;
        let word_count := len words in
        print (py "✅ Success!") ;;
        print_data (py "Summary: " ++ format_value summary) ;;
        print (py "Summary word count: " ++ str_of_Z word_count) ;;
        api_word_count <- getitem data (py "word_count") ;;
        print_data (py "API word_count field: " ++ format_value api_word_count) ;;
        timestamp <- getitem data (py "timestamp") ;;
        print_data (py "Timestamp: " ++ format_value timestamp) ;;
        if len (split text) >? 10 then
          if word_count =? 10 then
            print (py "✅ Correct: Returned exactly 10 words as expected")
          else
            print (py "❌ Error: Expected 10 words, got "
                   ++ str_of_Z word_count)
        else if len (split text) =? 10 then
          if word_count =? 10 then
            print (py "✅ Correct: Returned all 10 words")
          else
            print (py "❌ Error: Expected 10 words, got "
                   ++ str_of_Z word_count)
        else
          if word_count =? len (split text) then
            print (py "✅ Correct: Returned all " ++ str_of_Z word_count
                   ++ py " words (less than 10)")
          else
            print (py "❌ Error: Expected " ++ str_of_Z (len (split text))
                   ++ py " words, got " ++ str_of_Z word_count)
      else
        print (py "❌ Error: " ++ str_of_Z (Response.status_code response)) ;;
        print (py "Response: " ++ Response.text response))
     (fun e =>
        match e with
        | ConnectionError _ =>
            print (py "❌ Error: Could not connect to server.") ;;
            print (py "   Make sure the server is running: uvicorn main:app --reload")
        | _ => print (py "❌ Error: " ++ exn_str e)
        end))%prog.

(** Test 7 of [main], the empty string (lines 108 to 125). *)
Definition test_empty_string : prog exn event unit :=
  (print (nl ++ str_repeat "=" 60) ;;
   print (py "Test: Empty string (should return validation error)") ;;
   print (str_repeat "=" 60) ;;
   try_except
     (response <- requests_post (BASE_URL ++ py "/summaries")
                    (PDict {[ py "text" := PStr (py "") ]}) 5 ;;
      print (py "Status Code: " ++ str_of_Z (Response.status_code response)) ;;
      (if Response.status_code response =? 422 then
         print (py "✅ Correct: Validation error as expected")
       else
         print (py "❌ Unexpected status code: "
                ++ str_of_Z (Response.status_code response))) ;;
      print (py "Response: " ++ Response.text response))
     (fun e => print (py "❌ Error: " ++ exn_str e)))%prog.

Definition main : prog exn event unit :=
  (print (nl ++ str_repeat "=" 60) ;;
   print (py "Testing POST /summaries Endpoint") ;;
   print (str_repeat "=" 60) ;;
   test_summaries
     (py "This is a test sentence with exactly fifteen words in total for testing purposes")
     (py "More than 10 words (should return exactly 10)") ;;
   test_summaries
     (py "one two three four five six seven eight nine ten")
     (py "Exactly 10 words (should return all 10)") ;;
   test_summaries
     (py "Hello world from the API")
     (py "Less than 10 words (should return all words)") ;;
   test_summaries
     (py "The quick brown fox jumps over the lazy dog and then runs through the forest to find food and water for survival in the wilderness during the cold winter months when resources are scarce and animals must adapt")
     (py "Long paragraph (should return first 10 words)") ;;
   test_summaries
     (py "  word1   word2    word3  word4  word5  word6  word7  word8  word9  word10  word11  word12  ")
     (py "Multiple whitespaces (should handle correctly)") ;;
   test_summaries
     (py "Hello")
     (py "Single word") ;;
   test_empty_string ;;
   print (nl ++ str_repeat "=" 60) ;;
   print (py "Testing Complete!") ;;
   print (str_repeat "=" 60 ++ nl))%prog.

(** What [test_summaries] prints up to the check of the word count, on a
    200 response that has all the fields it reads, each of them
    printable. *)
Definition report_lines (text description summary : str)
    (api_word_count timestamp : pyvalue) : list str :=
  [ nl ++ str_repeat "=" 60;
    py "Test: " ++ description;
    str_repeat "=" 60;
    py "Input text: " ++ text;
    py "Input word count: " ++ str_of_Z (len (split text));
    py "Status Code: " ++ str_of_Z 200;
    py "✅ Success!";
    py "Summary: " ++ summary;
    py "Summary word count: " ++ str_of_Z (len (split summary));
    py "API word_count field: " ++ format_value api_word_count;
    py "Timestamp: " ++ format_value timestamp ].

(** *** The environment of the script *)

Record World {W : Type} : Type := { stdout : list str; env : W }.
Arguments World : clear implicits.

Section Env.
Context {W : Type}.
(** What an HTTP call comes to: a response or a raised exception. *)
Variable post : str -> pyvalue -> Z -> W -> (exn + Response) * W.

(** The environment answers an HTTP call as [post] says, and writes a
    line to standard output.  A line with a value of the response body
    that standard output cannot encode does not get here: [print_data]
    has raised before. *)
Definition handle (X : Type) (ev : event X) (w : World W)
  : (exn + X) * World W :=
  match ev in event X return (exn + X) * World W with
  | Requests_post url json timeout =>
      let '(r, e) := post url json timeout (env w) in
      (r, {| stdout := stdout w; env := e |})
  | Print_line line =>
      (inr tt, {| stdout := stdout w ++ [line]; env := env w |})
  end.

(** [p] makes no HTTP call, in any world. *)
Definition silent {A : Type} (p : prog exn event A) : Prop :=
  forall w, posts_of (trace (run handle p w)) = [].

(** [p] returns normally in every world, having made exactly the HTTP
    calls [calls]. *)
Definition completes (p : prog exn event unit)
    (calls : list (str * pyvalue * Z)) : Prop :=
  forall w,
    outcome (run handle p w) = inr tt
    /\ posts_of (trace (run handle p w)) = calls.

(** [python test_manual.py]: the exit status of the process. *)
Definition exit_code (outcome : exn + unit) : Z :=
  match outcome with
  | inr _ => 0
  | inl _ => 1
  end.
End Env.
End Script.
Arguments World : clear implicits.

(** The six texts of [main] passed to [test_summaries], in order. *)
Definition main_texts : list str :=
  [ py "This is a test sentence with exactly fifteen words in total for testing purposes";
    py "one two three four five six seven eight nine ten";
    py "Hello world from the API";
    py "The quick brown fox jumps over the lazy dog and then runs through the forest to find food and water for survival in the wilderness during the cold winter months when resources are scarce and animals must adapt";
    py "  word1   word2    word3  word4  word5  word6  word7  word8  word9  word10  word11  word12  ";
    py "Hello" ].

End TestManual.

(** ** Sample environments *)

Module Samples.
Import Middleware.

(** A clock that plays back a list of readings. *)
Definition playback (readings : list float) : float * list float :=
  match readings with
  | t :: rest => (t, rest)
  | [] => (S754_zero false, [])
  end.

(** 1.5 s and 1.75 s. *)
Definition t_start : float := binary_normalize prec emax 3 (-1) false.
Definition t_end : float := binary_normalize prec emax 7 (-2) false.

Definition ok_response : Response := {| status_code := 200; body := [] |}.

(** A pipeline that answers 200, and one that raises. *)
Definition ok_pipeline (request : Request) (w : World (list float))
  : (string + Response) * World (list float) :=
  (inr ok_response, w).

Definition failing_pipeline (request : Request) (w : World (list float))
  : (string + Response) * World (list float) :=
  (inl "boom"%string, w).

Definition summaries_request : Request :=
  {| url := {| path := py "/summaries" |} |}.

Definition fresh : World (list float) :=
  {| stdout := []; env := [t_start; t_end] |}.

(** 2.3642578125 s, which is 864.2578125 ms after [t_start]. *)
Definition t_uneven : float := binary_normalize prec emax 2421 (-10) false.

Definition uneven : World (list float) :=
  {| stdout := []; env := [t_start; t_uneven] |}.

End Samples.

Module ProbeSamples.
Import TestManual.

Definition plain_repr (v : pyvalue) : str := py "<object>".

Definition quoted (s : str) : str := [34%N] ++ s ++ [34%N].

(** A 200 response whose body has the three fields. *)
Definition full_response : Response :=
  {| Response.status_code := 200;
     Response.text :=
       py "{" ++ quoted (py "summary") ++ py ": " ++ quoted (py "Hello")
       ++ py ", " ++ quoted (py "word_count") ++ py ": 1, "
       ++ quoted (py "timestamp") ++ py ": "
       ++ quoted (py "2024-01-01T00:00:00") ++ py "}";
     Response.json :=
       inr (PDict (<[ py "summary" := PStr (py "Hello") ]>
                     (<[ py "word_count" := PInt 1 ]>
                        {[ py "timestamp" := PStr (py "2024-01-01T00:00:00") ]}))) |}.



(** Servers that always answer the same, and none at all. *)
Definition answering (response : Response)
    (url : str) (json : pyvalue) (timeout : Z) (e : unit)
  : (exn + Response) * unit :=
  (inr response, e).

Definition refusing (url : str) (json : pyvalue) (timeout : Z) (e : unit)
  : (exn + Response) * unit :=
  (inl (ConnectionError (py "Connection refused")), e).

Definition blank : World unit := {| stdout := []; env := tt |}.

(** A 200 response whose summary is the one character that the JSON
    escape [\ud800] decodes to. *)
Definition lone_surrogate_response : Response :=
  {| Response.status_code := 200;
     Response.text :=
       py "{" ++ quoted (py "summary") ++ py ": "
       ++ quoted (py "\ud800")
       ++ py ", " ++ quoted (py "word_count") ++ py ": 1, "
       ++ quoted (py "timestamp") ++ py ": "
       ++ quoted (py "2024-01-01T00:00:00") ++ py "}";
     Response.json :=
       inr (PDict (<[ py "summary" := PStr [55296%N] ]>
                     (<[ py "word_count" := PInt 1 ]>
                        {[ py "timestamp" := PStr (py "2024-01-01T00:00:00") ]}))) |}.

(** A server that answers its first [n] calls and is gone after them; its
    state is the number of calls received. *)
Definition going_away (response : Response) (n : nat)
    (url : str) (json : pyvalue) (timeout : Z) (received : nat)
  : (exn + Response) * nat :=
  if (received <? n)%nat then (inr response, S received)
  else (inl (ConnectionError (py "Connection refused")), S received).

Definition unvisited : World nat := {| stdout := []; env := O |}.

End ProbeSamples.

(** ** Further observations *)

(** [x < y] on floats. *)
Definition float_ltb : float -> float -> bool := SFltb.

(** The sign bit of a number ([math.copysign(1.0, x) < 0]). *)
Definition float_signbit (x : float) : bool :=
  match x with
  | S754_zero s | S754_infinity s | S754_finite s _ _ => s
  | S754_nan => false
  end.

Module Probe.
Import TestManual.

(** The five lines [test_summaries] prints before its HTTP call. *)
Definition heading (text description : str) : list str :=
  [ nl ++ str_repeat "=" 60;
    py "Test: " ++ description;
    str_repeat "=" 60;
    py "Input text: " ++ text;
    py "Input word count: " ++ str_of_Z (len (split text)) ].

(** The three lines [main] prints before the call of its seventh test. *)
Definition empty_string_heading : list str :=
  [ nl ++ str_repeat "=" 60;
    py "Test: Empty string (should return validation error)";
    str_repeat "=" 60 ].

(** The line the word count check of [test_summaries] prints (lines 40 to
    54), for an input of [n] words and a summary of [k] words. *)
Definition check_line (n k : Z) : str :=
  if n >? 10 then
    if k =? 10 then py "✅ Correct: Returned exactly 10 words as expected"
    else py "❌ Error: Expected 10 words, got " ++ str_of_Z k
  else if n =? 10 then
    if k =? 10 then py "✅ Correct: Returned all 10 words"
    else py "❌ Error: Expected 10 words, got " ++ str_of_Z k
  else
    if k =? n then
      py "✅ Correct: Returned all " ++ str_of_Z k ++ py " words (less than 10)"
    else
      py "❌ Error: Expected " ++ str_of_Z n ++ py " words, got " ++ str_of_Z k.

(** The number of words the check accepts for an input of [n] words. *)
Definition expected_count (n : Z) : Z := Z.min 10 n.



(** The summary of a body that has all that [test_summaries] reads on a
    200 response: a JSON object with a string under ["summary"] and values
    under ["word_count"] and ["timestamp"], the three lines that report
    them being printable. *)
Definition readable_summary (repr : pyvalue -> str) (body : str + pyvalue)
  : option str :=
  match body with
  | inr (PDict d) =>
      match d !! py "summary", d !! py "word_count", d !! py "timestamp" with
      | Some (PStr summary), Some a, Some t =>
          if encodable (py "Summary: " ++ summary)
             && encodable (py "API word_count field: " ++ format_value repr a)
             && encodable (py "Timestamp: " ++ format_value repr t)
          then Some summary
          else None
      | _, _, _ => None
      end
  | _ => None
  end.


End Probe.

Module MoreSamples.
Import Middleware Samples TestManual ProbeSamples.

(** A wall clock set back between the two readings. *)
Definition set_back : Middleware.World (list float) :=
  {| Middleware.stdout := []; Middleware.env := [t_end; t_start] |}.

Definition not_found_response : Response :=
  {| Response.status_code := 404;
     Response.text := py "Not Found";
     Response.json := inl (py "Expecting value: line 1 column 1 (char 0)") |}.

End MoreSamples.

(** ** Interleaved invocations *)

(** Several programs in flight over one world: at each turn of a schedule
    one of them performs its next interaction, the others wait where they
    are.  A program that has returned or raised does nothing more. *)
Section Interleaving.
Context {Exn : Type} {E : Type -> Type} {World : Type}.
Variable handle : forall X, E X -> World -> (Exn + X) * World.

(** An interaction with the answer it got. *)
Definition answered : Type := { X : Type & (E X * (Exn + X))%type }.

(** The next step of [p]: what is left of it, the world after, and the
    interaction if the step was one (leaving a [try] is a step without
    interaction). *)
Fixpoint step {A : Type} (p : prog Exn E A) (w : World)
  : option (prog Exn E A * World * list answered) :=
  match p with
  | Ret _ | Raise _ => None
  | Vis ev k =>
      let '(r, w') := handle _ ev w in
      Some (match r with inl e => Raise e | inr x => k x end, w',
            [@existT Type (fun X => (E X * (Exn + X))%type) _ (ev, r)])
  | TryExcept body handler k =>
      match step body w with
      | Some (body', w', l) => Some (TryExcept body' handler k, w', l)
      | None =>
          match body with
          | Ret b => Some (k b, w, [])
          | Raise e => Some (bind (handler e) k, w, [])
          | _ => None
          end
      end
  end.

(** The pool after the turns of [schedule], the world, and the log: who
    performed what, in order. *)
Fixpoint exec {A : Type} (schedule : list nat) (pool : list (prog Exn E A))
    (w : World) (log : list (nat * answered))
  : list (prog Exn E A) * World * list (nat * answered) :=
  match schedule with
  | [] => (pool, w, log)
  | i :: rest =>
      match pool !! i with
      | Some p =>
          match step p w with
          | Some (p', w', l) =>
              exec rest (<[i := p']> pool) w' (log ++ map (pair i) l)
          | None => exec rest pool w log
          end
      | None => exec rest pool w log
      end
  end.

(** What program [i] itself performed and was answered. *)
Definition history_of (i : nat) (log : list (nat * answered)) : list answered :=
  flat_map (fun entry : nat * answered =>
              if Nat.eqb (fst entry) i then [snd entry] else []) log.
End Interleaving.

Module Concurrent.
Import Middleware.

(** The clock reading an answered interaction carries, if it is one. *)
Definition reading_of {Exn X : Type} (e : event X) : Exn + X -> list float :=
  match e in event X return Exn + X -> list float with
  | Time_time => fun r => match r with inr t => [t] | inl _ => [] end
  | _ => fun _ => []
  end.

(** The clock readings an invocation obtained, and the records it
    printed. *)
Definition readings_of {Exn : Type}
    (h : list (answered (Exn := Exn) (E := event))) : list float :=
  flat_map (fun a : answered =>
              reading_of (fst (projT2 a)) (snd (projT2 a))) h.

Definition lines_of {Exn : Type}
    (h : list (answered (Exn := Exn) (E := event))) : list str :=
  flat_map (fun a : answered =>
              match fst (projT2 a) with
              | Print_line line => [line]
              | _ => []
              end) h.

(** The invocations of the hook for a list of requests, none started. *)
Definition invocations {Exn : Type} (requests : list Request)
  : list (prog Exn event Response) :=
  map (fun request => dispatch request host_call_next) requests.

(** How far an invocation has come, with what it has been answered so
    far. *)
Inductive stage {Exn : Type} : Type :=
| Started
| Timed (start_time : float)
| Failed (start_time : float) (e : Exn)
| Called (start_time : float) (response : Response)
| Measured (start_time : float) (response : Response) (now : float)
| Logged (start_time : float) (response : Response) (now : float).

Definition the_line (request : Request) (start_time : float)
    (response : Response) (now : float) : str :=
  spec_log_line (path (url request))
    (float_mul (float_sub now start_time) (float_of_Z 1000))
    (status_code response).

(** What is left to run at a stage. *)
Definition rest_of {Exn : Type} (request : Request) (s : stage (Exn := Exn))
  : prog Exn event Response :=
  match s with
  | Started => dispatch request host_call_next
  | Timed start_time =>
      Vis (Call_next request) (fun response =>
        Vis Time_time (fun now =>
          Vis (Print_line (the_line request start_time response now))
            (fun _ => Ret response)))
  | Failed _ e => Raise e
  | Called start_time response =>
      Vis Time_time (fun now =>
        Vis (Print_line (the_line request start_time response now))
          (fun _ => Ret response))
  | Measured start_time response now =>
      Vis (Print_line (the_line request start_time response now))
        (fun _ => Ret response)
  | Logged _ response _ => Ret response
  end.

Definition ans {Exn X : Type} (e : event X) (r : Exn + X)
  : answered (Exn := Exn) (E := event) :=
  @existT Type (fun X => (event X * (Exn + X))%type) X (e, r).

(** What has been performed up to a stage. *)
Definition done_at {Exn : Type} (request : Request) (s : stage (Exn := Exn))
  : list (answered (Exn := Exn) (E := event)) :=
  match s with
  | Started => []
  | Timed t0 => [ans Time_time (inr t0)]
  | Failed t0 e => [ans Time_time (inr t0); ans (Call_next request) (inl e)]
  | Called t0 response =>
      [ans Time_time (inr t0); ans (Call_next request) (inr response)]
  | Measured t0 response t1 =>
      [ans Time_time (inr t0); ans (Call_next request) (inr response);
       ans Time_time (inr t1)]
  | Logged t0 response t1 =>
      [ans Time_time (inr t0); ans (Call_next request) (inr response);
       ans Time_time (inr t1);
       ans (Print_line (the_line request t0 response t1)) (inr tt)]
  end.

(** The number of turns an invocation needs to reach a stage; a failed
    invocation has none left to take, like one that has logged. *)
Definition turns_to {Exn : Type} (s : stage (Exn := Exn)) : nat :=
  match s with
  | Started => 0
  | Timed _ => 1
  | Called _ _ => 2
  | Measured _ _ _ => 3
  | Failed _ _ | Logged _ _ _ => 4
  end.

End Concurrent.

Module ConcurrentSamples.
Import Middleware Samples Concurrent.

Definition health_request : Request := {| url := {| path := py "/health" |} |}.

(** 2 s and 2.5 s. *)
Definition t_two : float := binary_normalize prec emax 2 0 false.
Definition t_late : float := binary_normalize prec emax 5 (-1) false.

Definition busy : World (list float) :=
  {| stdout := []; env := [t_start; t_end; t_two; t_late] |}.

(** The first invocation starts, the second starts, calls and the first
    calls; the second finishes while the first is still in flight. *)
Definition turns : list nat := [0; 1; 1; 0; 1; 0; 0; 1]%nat.

End ConcurrentSamples.

(** * Properties *)

(** ** Running programs *)

Section RunFacts.
Context {Exn : Type} {E : Type -> Type} {World : Type}.
Variable handle : forall X, E X -> World -> (Exn + X) * World.

(** Running [p] and then [f] is running [p], and [f] on its value if it
    has one. *)
Lemma run_bind {A B : Type} (p : prog Exn E A) (f : A -> prog Exn E B) w :
  run handle (bind p f) w =
  match run handle p w with
  | (inl e, w1, tr1) => (inl e, w1, tr1)
  | (inr a, w1, tr1) =>
      let '(o, w2, tr2) := run handle (f a) w1 in (o, w2, tr1 ++ tr2)
  end.
Proof.
  revert f w.
  induction p as [A a|A e|A X ev k IH|A C body _ handler _ k IH]; intros f w.
  - simpl. destruct (run handle (f a) w) as [[o w2] tr2]. reflexivity.
  - reflexivity.
  - simpl. destruct (handle X ev w) as [[e|x] w1]; [reflexivity|].
    rewrite IH. destruct (run handle (k x) w1) as [[[e|a] w2] tr2]; [reflexivity|].
    destruct (run handle (f a) w2) as [[o w3] tr3]. reflexivity.
  - simpl. destruct (run handle body w) as [[[e|b] w1] tr1].
    + destruct (run handle (handler e) w1) as [[[e'|b] w2] tr2]; [reflexivity|].
      rewrite IH. destruct (run handle (k b) w2) as [[[e'|a] w3] tr3].
      * reflexivity.
      * destruct (run handle (f a) w3) as [[o w4] tr4].
        now rewrite <- !app_assoc.
    + rewrite IH. destruct (run handle (k b) w1) as [[[e'|a] w3] tr3].
      * reflexivity.
      * destruct (run handle (f a) w3) as [[o w4] tr4].
        now rewrite <- !app_assoc.
Qed.
End RunFacts.

(** ** Decimal numerals *)

Section DecimalFacts.
Import Middleware.

Lemma py_cons_ascii c s :
  (N_of_ascii c <? 128)%N = true -> py (String c s) = N_of_ascii c :: py s.
Proof. intros H. unfold py. simpl list_ascii_of_string. simpl map. simpl utf8_decode. rewrite H. reflexivity. Qed.

Lemma py_uint_digits d :
  forallb is_digit (py (NilEmpty.string_of_uint d)) = true
  /\ (d <> Decimal.Nil -> py (NilEmpty.string_of_uint d) <> []).
Proof.
  induction d as [|d [IH _]|d [IH _]|d [IH _]|d [IH _]|d [IH _]|d [IH _]|d [IH _]|d [IH _]|d [IH _]|d [IH _]];
    [split; [reflexivity|congruence]|..];
    simpl NilEmpty.string_of_uint; rewrite py_cons_ascii by reflexivity;
    (split; [simpl; exact IH | discriminate]).
Qed.

Lemma str_of_Z_digits q :
  0 <= q -> forallb is_digit (str_of_Z q) = true /\ str_of_Z q <> [].
Proof.
  intros Hq. unfold str_of_Z. destruct q as [|p|p]; [split; [reflexivity|discriminate]| |lia].
  simpl Z.to_int. unfold NilZero.string_of_int, NilZero.string_of_uint.
  pose proof (Unsigned.to_uint_nonnil p) as Hn.
  destruct (py_uint_digits (Pos.to_uint p)) as [H1 H2].
  destruct (Pos.to_uint p); try congruence; split; auto.
Qed.
Lemma digit_is_digit d : 0 <= d < 10 -> is_digit (digit d) = true.
Proof.
  intros H. unfold is_digit, digit. apply andb_true_iff. split; apply N.leb_le; lia.
Qed.

Lemma hundredths_nonneg m e : 0 <= hundredths m e.
Proof.
  unfold hundredths. destruct (0 <=? e) eqn:He.
  - apply Z.leb_le in He. pose proof (Z.pow_nonneg 2 e). nia.
  - apply Z.leb_gt in He. unfold round_half_even.
    assert (0 < 2 ^ (- e)) by (apply Z.pow_pos_nonneg; lia).
    assert (0 <= Z.pos m * 100 / 2 ^ (- e)) by (apply Z.div_pos; lia).
    destruct (_ ?= _); [destruct (Z.even _)| |]; lia.
Qed.

Lemma forallb_is_digit_rev l :
  forallb is_digit l = true -> forallb is_digit (rev l) = true.
Proof.
  rewrite !forallb_forall. intros H c Hc. apply H. now apply in_rev.
Qed.

Lemma two_decimals_intro sign int_part d1 d2 :
  sign = [] \/ sign = [45%N] ->
  int_part <> [] -> forallb is_digit int_part = true ->
  is_digit d1 = true -> is_digit d2 = true ->
  two_decimals (sign ++ int_part ++ [46%N; d1; d2]) = true.
Proof.
  intros Hs Hne Hd H1 H2.
  assert (Hu : match rev (int_part ++ [46%N; d1; d2]) with
               | d2 :: d1 :: 46%N :: int_part =>
                   is_digit d2 && is_digit d1
                   && negb (Nat.eqb (List.length int_part) 0) && forallb is_digit int_part
               | _ => false
               end = true).
  { rewrite rev_app_distr. simpl. rewrite H1, H2, length_rev.
    rewrite forallb_is_digit_rev by exact Hd.
    destruct int_part; [congruence|reflexivity]. }
  destruct Hs as [-> | ->]; [|exact Hu].
  unfold two_decimals. destruct int_part as [|c rest]; [congruence|].
  simpl in Hd. apply andb_true_iff in Hd as [Hc _].
  simpl app in *.
  destruct (N.eq_dec c 45%N) as [->|Hc45]; [discriminate|].
  destruct c as [|p]; [exact Hu|].
  do 6 (destruct p as [p|p|]; try exact Hu). congruence.
Qed.

Lemma fixed2_two_decimals s n :
  0 <= n -> two_decimals (sign_str s ++ fixed2 n) = true.
Proof.
  intros Hn. unfold fixed2.
  destruct (str_of_Z_digits (n / 100)) as [Hd Hne]; [apply Z.div_pos; lia|].
  apply two_decimals_intro; auto.
  - destruct s; auto.
  - apply digit_is_digit, Z.mod_pos_bound; lia.
  - apply digit_is_digit, Z.mod_pos_bound; lia.
Qed.

Lemma format_2f_two_decimals x :
  is_finite x = true -> two_decimals (format_2f x) = true.
Proof.
  destruct x as [s|s| |s m e]; try discriminate; intros _; simpl.
  - now apply fixed2_two_decimals.
  - apply fixed2_two_decimals, hundredths_nonneg.
Qed.
End DecimalFacts.

(** ** Reading back what [.2f] wrote *)

Section ReadBack.
Import Middleware.

Lemma read_digits_app acc s1 s2 :
  read_digits acc (s1 ++ s2)
  = match read_digits acc s1 with
    | Some v => read_digits v s2
    | None => None
    end.
Proof.
  revert acc. induction s1 as [|c s1 IH]; intros acc; [reflexivity|].
  cbn [app read_digits]. destruct (digit_value c); [apply IH|reflexivity].
Qed.

Lemma read_digits_cons_digit c s acc (k : N) :
  N_of_ascii c = (48 + k)%N -> (k < 10)%N ->
  read_digits acc (py (String c s)) = read_digits (10 * acc + Z.of_N k) (py s).
Proof.
  intros Hc Hk. rewrite py_cons_ascii by (rewrite Hc; apply N.ltb_lt; lia).
  cbn [read_digits]. unfold digit_value. rewrite Hc.
  replace ((48 <=? 48 + k)%N && (48 + k <=? 57)%N) with true
    by (symmetry; apply andb_true_iff; split; apply N.leb_le; lia).
  f_equal. lia.
Qed.

Lemma read_digits_uint d acc :
  read_digits acc (py (NilEmpty.string_of_uint d)) = Some (uint_value d acc).
Proof.
  revert acc. induction d; intros acc; [reflexivity|..];
    simpl NilEmpty.string_of_uint; cbn [uint_value]; rewrite <- IHd.
  - rewrite (read_digits_cons_digit _ _ _ 0) by (reflexivity || lia). f_equal. lia.
  - now rewrite (read_digits_cons_digit _ _ _ 1) by (reflexivity || lia).
  - now rewrite (read_digits_cons_digit _ _ _ 2) by (reflexivity || lia).
  - now rewrite (read_digits_cons_digit _ _ _ 3) by (reflexivity || lia).
  - now rewrite (read_digits_cons_digit _ _ _ 4) by (reflexivity || lia).
  - now rewrite (read_digits_cons_digit _ _ _ 5) by (reflexivity || lia).
  - now rewrite (read_digits_cons_digit _ _ _ 6) by (reflexivity || lia).
  - now rewrite (read_digits_cons_digit _ _ _ 7) by (reflexivity || lia).
  - now rewrite (read_digits_cons_digit _ _ _ 8) by (reflexivity || lia).
  - now rewrite (read_digits_cons_digit _ _ _ 9) by (reflexivity || lia).
Qed.

Lemma uint_value_acc d acc :
  uint_value d (Z.pos acc) = Z.pos (Pos.of_uint_acc d acc).
Proof.
  revert acc. induction d; intros acc; cbn [uint_value Pos.of_uint_acc];
    [reflexivity|..];
    match goal with
    | |- uint_value _ ?z = Z.pos (Pos.of_uint_acc _ ?p) =>
        replace z with (Z.pos p) by lia; apply IHd
    end.
Qed.

Lemma uint_value_0 d : uint_value d 0 = Z.of_N (Pos.of_uint d).
Proof.
  induction d; cbn [uint_value Pos.of_uint]; [reflexivity|exact IHd|..];
    match goal with
    | |- uint_value _ ?z = _ =>
        let p := eval compute in (Z.to_pos z) in
        change z with (Z.pos p); rewrite uint_value_acc; reflexivity
    end.
Qed.

Lemma read_digits_str_of_Z q :
  0 <= q -> read_digits 0 (str_of_Z q) = Some q.
Proof.
  intros Hq. unfold str_of_Z. destruct q as [|p|p]; [reflexivity| |lia].
  simpl Z.to_int. unfold NilZero.string_of_int, NilZero.string_of_uint.
  pose proof (Unsigned.to_uint_nonnil p) as Hn.
  pose proof (Unsigned.of_to p) as Hof.
  destruct (Pos.to_uint p) eqn:E; try congruence;
    rewrite read_digits_uint, uint_value_0, Hof; reflexivity.
Qed.

Lemma unorm_nb_digits u :
  u <> Decimal.Nil ->
  (Decimal.nb_digits (Decimal.unorm u) <= Decimal.nb_digits u)%nat.
Proof.
  induction u as [|u IH|u _|u _|u _|u _|u _|u _|u _|u _|u _];
    intros Hu; try (cbn; lia); [congruence|].
  cbn [Decimal.unorm Decimal.nb_digits].
  destruct u; [cbn; lia|..]; (etransitivity; [apply IH; discriminate|lia]).
Qed.

(** The numeral of a positive number does not start with a zero. *)
Lemma to_uint_head p l : Pos.to_uint p <> Decimal.D0 l.
Proof.
  intros E. pose proof (Unsigned.to_of (Pos.to_uint p)) as H.
  rewrite Unsigned.of_to in H.
  change (N.to_uint (N.pos p)) with (Pos.to_uint p) in H.
  rewrite E in H. change (Decimal.unorm (Decimal.D0 l)) with (Decimal.unorm l) in H.
  destruct l as [|l|l|l|l|l|l|l|l|l|l];
    [exact (Unsigned.to_uint_nonzero p E)|..];
    match goal with
    | H : Decimal.D0 ?u = Decimal.unorm ?u |- _ =>
        pose proof (unorm_nb_digits u ltac:(discriminate)) as Hn;
        rewrite <- H in Hn; cbn [Decimal.nb_digits] in Hn; lia
    end.
Qed.

(** The numeral of a natural number has no superfluous leading zero. *)
Lemma str_of_Z_head q c rest :
  0 <= q -> str_of_Z q = c :: rest -> c = 48%N -> rest = [].
Proof.
  intros Hq. unfold str_of_Z. destruct q as [|p|p]; [|  |lia].
  - vm_compute. intros E _. now injection E.
  - simpl Z.to_int. unfold NilZero.string_of_int, NilZero.string_of_uint.
    pose proof (to_uint_head p) as Hh.
    pose proof (Unsigned.to_uint_nonnil p) as Hn.
    destruct (Pos.to_uint p) as [|l|l|l|l|l|l|l|l|l|l]; try congruence;
      try (exfalso; exact (Hh l eq_refl));
      simpl NilEmpty.string_of_uint; rewrite py_cons_ascii by reflexivity;
      intros E ->; discriminate E.
Qed.

Lemma read_unsigned_hundredths_fixed2 n :
  0 <= n -> read_unsigned_hundredths (fixed2 n) = Some n.
Proof.
  intros Hn. unfold fixed2, read_unsigned_hundredths.
  assert (Hq : 0 <= n / 100) by (apply Z.div_pos; lia).
  destruct (str_of_Z_digits (n / 100) Hq) as [Hd Hne].
  pose proof (read_digits_str_of_Z (n / 100) Hq) as Hr.
  pose proof (str_of_Z_head (n / 100)) as Hh.
  set (ip := str_of_Z (n / 100)) in *.
  set (high := digit (n / 10 mod 10)). set (low := digit (n mod 10)).
  change (py ".") with [46%N].
  rewrite rev_app_distr. cbn [rev app]. rewrite rev_involutive.
  assert (Hval : read_digits 0 (ip ++ [high; low]) = Some n).
  { rewrite read_digits_app, Hr. subst high low. cbn [read_digits].
    unfold digit_value, digit.
    assert (0 <= n / 10 mod 10 < 10) by (apply Z.mod_pos_bound; lia).
    assert (0 <= n mod 10 < 10) by (apply Z.mod_pos_bound; lia).
    replace ((48 <=? Z.to_N (48 + n / 10 mod 10))%N
             && (Z.to_N (48 + n / 10 mod 10) <=? 57)%N) with true
      by (symmetry; apply andb_true_iff; split; apply N.leb_le; lia).
    replace ((48 <=? Z.to_N (48 + n mod 10))%N
             && (Z.to_N (48 + n mod 10) <=? 57)%N) with true
      by (symmetry; apply andb_true_iff; split; apply N.leb_le; lia).
    f_equal. rewrite !Z2N.id by lia.
    pose proof (Z.div_mod n 100 ltac:(lia)).
    pose proof (Z.div_mod n 10 ltac:(lia)).
    pose proof (Z.div_mod (n / 10) 10 ltac:(lia)).
    replace (n / 10 / 10) with (n / 100) in *
      by (rewrite Z.div_div by lia; reflexivity).
    lia. }
  destruct ip as [|c rest] eqn:Hip; [congruence|].
  cbn [app] in Hval |- *.
  destruct (N.eq_dec c 48%N) as [->|Hc].
  - rewrite (Hh 48%N rest Hq eq_refl eq_refl) in Hval |- *.
    cbn [app] in Hval |- *. exact Hval.
  - destruct c as [|p]; [exact Hval|].
    do 6 (destruct p as [p|p|]; try exact Hval). congruence.
Qed.

(** Reading back what [.2f] wrote gives the hundredths it was given, with
    the sign. *)
Lemma read_hundredths_fixed2 s n :
  0 <= n ->
  read_hundredths (sign_str s ++ fixed2 n) = Some (if s then - n else n).
Proof.
  intros Hn. pose proof (read_unsigned_hundredths_fixed2 n Hn) as Hu.
  destruct s.
  - change (sign_str true) with [45%N]. cbn [app read_hundredths].
    rewrite Hu. reflexivity.
  - cbn [sign_str app]. unfold fixed2 in *.
    assert (Hq : 0 <= n / 100) by (apply Z.div_pos; lia).
    destruct (str_of_Z_digits (n / 100) Hq) as [Hd Hne].
    destruct (str_of_Z (n / 100)) as [|c rest]; [congruence|].
    assert (Hc : is_digit c = true)
      by (simpl in Hd; now apply andb_true_iff in Hd).
    assert (c <> 45%N) by (intros ->; discriminate Hc).
    cbn [app] in Hu |- *. unfold read_hundredths.
    destruct c as [|p]; [exact Hu|].
    do 6 (destruct p as [p|p|]; try exact Hu). congruence.
Qed.

Lemma round_half_even_nearest a k :
  0 <= a -> 0 < k ->
  let n := round_half_even a k in
  0 <= n /\ 2 * Z.abs (n * k - a) <= k
  /\ (2 * Z.abs (n * k - a) = k -> Z.even n = true).
Proof.
  intros Ha Hk n. subst n. unfold round_half_even.
  pose proof (Z.div_mod a k ltac:(lia)) as Hdm.
  pose proof (Z.mod_pos_bound a k Hk) as Hr.
  assert (Hq : 0 <= a / k) by (apply Z.div_pos; lia).
  set (q := a / k) in *. set (r := a mod k) in *.
  destruct (Z.compare_spec (2 * r) k) as [E|E|E].
  - destruct (Z.even q) eqn:Hev.
    + split; [lia|]. split; [nia|]. intros _. exact Hev.
    + split; [lia|]. split; [nia|]. intros _.
      rewrite Z.even_add, Hev. reflexivity.
  - split; [lia|]. split; [nia|]. intros F. exfalso. nia.
  - split; [lia|]. split; [nia|]. intros F. exfalso. nia.
Qed.

(** What [.2f] writes for a finite number reads back as the nearest
    number of hundredths, ties to even. *)
Lemma format_2f_nearest x :
  is_finite x = true ->
  exists n, read_hundredths (format_2f x) = Some n
            /\ nearest_hundredths (float_value x) n.
Proof.
  destruct x as [s|s| |s m e]; try discriminate; intros _.
  - exists 0. split.
    + cbn [format_2f]. rewrite read_hundredths_fixed2 by lia.
      destruct s; reflexivity.
    + split; [vm_compute; discriminate|intros _; reflexivity].
  - cbn [format_2f float_value].
    exists (if s then - hundredths m e else hundredths m e).
    split; [apply read_hundredths_fixed2, hundredths_nonneg|].
    unfold hundredths. destruct (Z.leb_spec 0 e) as [He|He].
    + assert (Heq : (inject_Z (if s then - (Z.pos m * 100 * 2 ^ e)
                                else Z.pos m * 100 * 2 ^ e)
                     - inject_Z 100
                       * (if s then - inject_Z (Z.pos m * 2 ^ e)
                          else inject_Z (Z.pos m * 2 ^ e)) == 0)%Q).
      { destruct s; unfold Qeq, Qminus, Qplus, Qmult, Qopp, inject_Z;
          cbn [Qnum Qden]; lia. }
      split.
      * rewrite Heq. vm_compute. discriminate.
      * intros F. rewrite Heq in F. vm_compute in F. discriminate F.
    + set (k := 2 ^ (- e)).
      assert (Hk : 0 < k) by (apply Z.pow_pos_nonneg; lia).
      destruct (round_half_even_nearest (Z.pos m * 100) k ltac:(lia) Hk)
        as (Hn0 & Hle & Htie).
      set (n := round_half_even (Z.pos m * 100) k) in *.
      assert (Heq : (Qabs (inject_Z (if s then - n else n)
                           - inject_Z 100
                             * (if s then - (Z.pos m # Z.to_pos k)
                                else Z.pos m # Z.to_pos k))
                     == Z.abs (n * k - Z.pos m * 100) # Z.to_pos k)%Q).
      { assert (Hp : Z.pos (Z.to_pos k) = k) by (apply Z2Pos.id; exact Hk).
        destruct s; unfold Qeq, Qabs, Qminus, Qplus, Qmult, Qopp, inject_Z;
          cbn [Qnum Qden]; rewrite ?Hp; rewrite ?Pos2Z.inj_mul, ?Hp;
          rewrite !Z.mul_1_l, ?Z.mul_1_r; f_equal;
          [rewrite <- Z.abs_opp|]; f_equal; ring. }
      assert (Hp : Z.pos (Z.to_pos k) = k) by (apply Z2Pos.id; exact Hk).
      split.
      * rewrite Heq. unfold Qle. cbn [Qnum Qden]. rewrite Hp. lia.
      * intros F. rewrite Heq in F. unfold Qeq in F. cbn [Qnum Qden] in F.
        rewrite Hp in F.
        assert (Hev : Z.even n = true) by (apply Htie; lia).
        destruct s; [rewrite Z.even_opp|]; exact Hev.
Qed.

(** A minus sign is written exactly for the numbers whose sign bit is
    set. *)
Lemma format_2f_sign x :
  is_finite x = true -> startswith (py "-") (format_2f x) = float_signbit x.
Proof.
  destruct x as [s|s| |s m e]; try discriminate; intros _.
  - destruct s; reflexivity.
  - destruct s; [reflexivity|].
    cbn [format_2f float_signbit sign_str app]. unfold fixed2.
    assert (Hq : 0 <= hundredths m e / 100)
      by (apply Z.div_pos; [apply hundredths_nonneg|lia]).
    destruct (str_of_Z_digits _ Hq) as [Hd Hne].
    destruct (str_of_Z (hundredths m e / 100)) as [|c rest]; [congruence|].
    cbn [forallb] in Hd. apply andb_true_iff in Hd as [Hc _].
    change (py "-") with [45%N]. cbn [app startswith].
    destruct (N.eqb_spec 45 c) as [<-|_]; [discriminate Hc|reflexivity].
Qed.
End ReadBack.

(** ** Signs in binary64 arithmetic *)

Section FloatFacts.

Lemma shr_1_nonneg mrs : 0 <= shr_m mrs -> 0 <= shr_m (shr_1 mrs).
Proof. destruct mrs as [[|[p|p|]|p] r s]; simpl; lia. Qed.

Lemma iter_shr_1_nonneg n mrs :
  0 <= shr_m mrs -> 0 <= shr_m (SpecFloat.iter_pos shr_1 n mrs).
Proof.
  revert mrs. induction n as [n IH|n IH|]; intros mrs H; simpl.
  - apply IH, IH, shr_1_nonneg, H.
  - apply IH, IH, H.
  - apply shr_1_nonneg, H.
Qed.

Lemma shr_fexp_nonneg m e l :
  0 <= m -> 0 <= shr_m (fst (shr_fexp prec emax m e l)).
Proof.
  intros H. unfold shr_fexp, shr.
  assert (H0 : 0 <= shr_m (shr_record_of_loc m l)) by (destruct l as [|[| |]]; exact H).
  destruct (fexp prec emax (Zdigits2 m + e) - e); simpl; auto using iter_shr_1_nonneg.
Qed.

Lemma round_nearest_even_nonneg m l : 0 <= m -> 0 <= round_nearest_even m l.
Proof.
  intros H. destruct l as [|[| |]]; simpl; try lia. destruct (Z.even m); lia.
Qed.

Lemma binary_round_aux_nonneg m e l :
  0 <= m -> float_nonneg (binary_round_aux prec emax false m e l) = true.
Proof.
  intros H. unfold binary_round_aux.
  pose proof (shr_fexp_nonneg m e l H) as H1.
  destruct (shr_fexp prec emax m e l) as [mrs1 e1]. simpl in H1.
  pose proof (shr_fexp_nonneg _ e1 loc_Exact
                (round_nearest_even_nonneg _ (loc_of_shr_record mrs1) H1)) as H2.
  destruct (shr_fexp prec emax _ e1 loc_Exact) as [mrs2 e2]. simpl in H2.
  destruct (shr_m mrs2) as [|p|p]; [reflexivity| |lia].
  destruct (e2 <=? emax - prec); reflexivity.
Qed.

Lemma binary_normalize_nonneg m e :
  0 <= m -> float_nonneg (binary_normalize prec emax m e false) = true.
Proof.
  intros H. destruct m as [|p|p]; [reflexivity| |lia].
  unfold binary_normalize, binary_round.
  destruct (shl_align p e _) as [mz ez]. now apply binary_round_aux_nonneg.
Qed.

Lemma float_mul_nonneg x :
  float_nonneg x = true -> float_nonneg (float_mul x (float_of_Z 1000)) = true.
Proof.
  destruct x as [s|s| |s m e]; try discriminate; simpl; intros H.
  - reflexivity.
  - now rewrite xorb_false_r.
  - apply negb_true_iff in H. subst s. now apply binary_round_aux_nonneg.
Qed.

Lemma float_nonneg_leb x :
  float_nonneg x = true -> float_leb (float_of_Z 0) x = true.
Proof. destruct x as [s|[|]| |[|] m e]; try discriminate; reflexivity. Qed.

(** The mantissa of [x] brought to the smaller exponent [e'] is
    [m * 2^(e - e')]. *)
Lemma iter_xO m d : Z.pos (Pos.iter xO m d) = Z.pos m * 2 ^ Z.pos d.
Proof.
  induction d as [|d IH] using Pos.peano_ind.
  - simpl. lia.
  - rewrite Pos.iter_succ, Pos2Z.inj_xO, IH, Pos2Z.inj_succ, Z.pow_succ_r by lia. lia.
Qed.

Lemma shl_align_value m e e' :
  e' <= e -> Z.pos (fst (shl_align m e e')) = Z.pos m * 2 ^ (e - e').
Proof.
  intros H. unfold shl_align. destruct (e' - e) as [|d|d] eqn:Hd; simpl.
  - replace (e - e') with 0 by lia. lia.
  - lia.
  - rewrite iter_xO. f_equal. f_equal. lia.
Qed.

Lemma digits2_pos_bounds m :
  2 ^ (Z.pos (digits2_pos m) - 1) <= Z.pos m < 2 ^ Z.pos (digits2_pos m).
Proof.
  induction m as [m IH|m IH|]; simpl digits2_pos.
  - rewrite Pos2Z.inj_succ.
    replace (Z.succ (Z.pos (digits2_pos m)) - 1) with (Z.succ (Z.pos (digits2_pos m) - 1)) by lia.
    rewrite !Z.pow_succ_r by lia. lia.
  - rewrite Pos2Z.inj_succ.
    replace (Z.succ (Z.pos (digits2_pos m)) - 1) with (Z.succ (Z.pos (digits2_pos m) - 1)) by lia.
    rewrite !Z.pow_succ_r by lia. lia.
  - simpl. lia.
Qed.

(** A canonical mantissa has at most 53 bits, and exactly 53 above the
    smallest exponent. *)
Lemma canonical_bounds m e :
  canonical_mantissa prec emax m e = true ->
  Z.pos m < 2 ^ 53 /\ (-1074 <= e) /\ (-1074 < e -> 2 ^ 52 <= Z.pos m).
Proof.
  unfold canonical_mantissa, fexp, SpecFloat.emin, prec, emax. intros H.
  apply Z.eqb_eq in H. pose proof (digits2_pos_bounds m) as [Hlo Hhi].
  assert (Hd : Z.pos (digits2_pos m) <= 53) by lia.
  split; [|split].
  - eapply Z.lt_le_trans; [exact Hhi|]. apply Z.pow_le_mono_r; lia.
  - lia.
  - intros He. assert (Z.pos (digits2_pos m) = 53) by lia.
    rewrite H0 in Hlo. exact Hlo.
Qed.

(** Of two canonical positive numbers, the one with the smaller exponent
    is the smaller. *)
Lemma canonical_lt_exp m1 e1 m2 e2 :
  canonical_mantissa prec emax m1 e1 = true ->
  canonical_mantissa prec emax m2 e2 = true ->
  e1 < e2 -> Z.pos m1 <= Z.pos m2 * 2 ^ (e2 - e1).
Proof.
  intros H1 H2 He.
  destruct (canonical_bounds _ _ H1) as (Hm1 & Hemin & _).
  destruct (canonical_bounds _ _ H2) as (_ & _ & Hm2).
  specialize (Hm2 ltac:(lia)).
  assert (2 ^ 1 <= 2 ^ (e2 - e1)) by (apply Z.pow_le_mono_r; lia).
  change (2 ^ 53) with (2 ^ 52 * 2 ^ 1) in Hm1. nia.
Qed.

Lemma float_sub_nonneg now start :
  is_finite start = true -> valid_binary prec emax start = true ->
  is_finite now = true -> valid_binary prec emax now = true ->
  float_leb start now = true ->
  float_nonneg (float_sub now start) = true.
Proof.
  intros Fs Vs Fn Vn Hle.
  destruct now as [sn|sn| |sn mn en]; try discriminate;
  destruct start as [ss|ss| |ss ms es]; try discriminate.
  - destruct sn, ss; reflexivity.
  - destruct ss; [reflexivity|discriminate].
  - destruct sn; [discriminate|reflexivity].
  - unfold float_sub, SFsub. apply binary_normalize_nonneg.
    rewrite !shl_align_value by lia.
    simpl in Vs, Vn. unfold bounded in Vs, Vn.
    apply andb_true_iff in Vs as [Cs _]. apply andb_true_iff in Vn as [Cn _].
    unfold float_leb, SFleb, SFcompare in Hle.
    destruct ss, sn; simpl cond_Zopp; try discriminate.
    + (* both negative *)
      destruct (Z.compare_spec es en) as [He|He|He]; try discriminate.
      * subst en. rewrite Z.min_id, Z.sub_diag, !Z.mul_1_r.
        rewrite Pos.compare_cont_spec in Hle. simpl in Hle.
        destruct (Pos.compare_spec ms mn) as [Hm|Hm|Hm]; try discriminate; lia.
      * rewrite Z.min_l by lia. rewrite Z.sub_diag, Z.mul_1_r.
        pose proof (canonical_lt_exp _ _ _ _ Cn Cs He). lia.
    + (* start negative, now positive *) lia.
    + (* both positive *)
      destruct (Z.compare_spec es en) as [He|He|He]; try discriminate.
      * subst en. rewrite Z.min_id, Z.sub_diag, !Z.mul_1_r.
        rewrite Pos.compare_cont_spec in Hle. simpl in Hle.
        destruct (Pos.compare_spec ms mn) as [Hm|Hm|Hm]; try discriminate; lia.
      * rewrite Z.min_r by lia. rewrite Z.sub_diag, Z.mul_1_r.
        pose proof (canonical_lt_exp _ _ _ _ Cs Cn He). lia.
Qed.
End FloatFacts.

(** ** Magnitudes in binary64 arithmetic *)

Section Magnitude.

Lemma Zdigits2_nonneg x : 0 <= Zdigits2 x.
Proof. destruct x; simpl; lia. Qed.

Lemma Zdigits2_upper x : 0 <= x -> x < 2 ^ Zdigits2 x.
Proof.
  destruct x as [|p|p]; intros H; [reflexivity| |lia].
  apply digits2_pos_bounds.
Qed.

Lemma Zdigits2_le x k : 0 <= x -> 0 <= k -> x < 2 ^ k -> Zdigits2 x <= k.
Proof.
  destruct x as [|p|p]; intros Hx Hk H; [exact Hk| |lia].
  cbn [Zdigits2]. pose proof (digits2_pos_bounds p) as [Hlo _].
  destruct (Z.le_gt_cases (Z.pos (digits2_pos p)) k) as [|Hgt]; [assumption|].
  assert (2 ^ k <= 2 ^ (Z.pos (digits2_pos p) - 1))
    by (apply Z.pow_le_mono_r; lia).
  lia.
Qed.

Lemma shr_1_digits mrs :
  0 <= shr_m mrs ->
  Zdigits2 (shr_m (shr_1 mrs)) = Z.max 0 (Zdigits2 (shr_m mrs) - 1).
Proof.
  destruct mrs as [[|[p|p|]|p] r s]; cbn [shr_m shr_1 Zdigits2 digits2_pos];
    intros H; rewrite ?Pos2Z.inj_succ; lia.
Qed.

Lemma iter_shr_1_digits n mrs :
  0 <= shr_m mrs ->
  Zdigits2 (shr_m (SpecFloat.iter_pos shr_1 n mrs))
  = Z.max 0 (Zdigits2 (shr_m mrs) - Z.pos n).
Proof.
  revert mrs. induction n as [n IH|n IH|]; intros mrs H;
    cbn [SpecFloat.iter_pos].
  - rewrite IH by (apply iter_shr_1_nonneg, shr_1_nonneg, H).
    rewrite IH by (apply shr_1_nonneg, H).
    rewrite shr_1_digits by exact H. lia.
  - rewrite IH by (apply iter_shr_1_nonneg, H).
    rewrite IH by exact H. lia.
  - apply shr_1_digits, H.
Qed.

Lemma shr_record_of_loc_m m l : shr_m (shr_record_of_loc m l) = m.
Proof. destruct l as [|[| |]]; reflexivity. Qed.

(** What the shift to the target exponent leaves: the exponent and the
    number of bits. *)
Lemma shr_fexp_digits m e l :
  0 <= m ->
  let r := shr_fexp prec emax m e l in
  0 <= shr_m (fst r)
  /\ snd r = Z.max e (fexp prec emax (Zdigits2 m + e))
  /\ Zdigits2 (shr_m (fst r)) = Z.max 0 (Zdigits2 m - (snd r - e)).
Proof.
  intros H r. split; [apply shr_fexp_nonneg, H|]. subst r.
  unfold shr_fexp, shr.
  destruct (fexp prec emax (Zdigits2 m + e) - e) as [|p|p] eqn:Hn;
    cbn [fst snd].
  - rewrite shr_record_of_loc_m. pose proof (Zdigits2_nonneg m). lia.
  - rewrite iter_shr_1_digits by (rewrite shr_record_of_loc_m; exact H).
    rewrite shr_record_of_loc_m. lia.
  - rewrite shr_record_of_loc_m. pose proof (Zdigits2_nonneg m). lia.
Qed.

Lemma round_nearest_even_digits m l :
  0 <= m -> Zdigits2 (round_nearest_even m l) <= Zdigits2 m + 1.
Proof.
  intros H. pose proof (Zdigits2_upper m H) as Hu.
  pose proof (Zdigits2_nonneg m) as Hd.
  apply Zdigits2_le; [apply round_nearest_even_nonneg, H|lia|].
  rewrite Z.pow_add_r, Z.pow_1_r by lia.
  destruct l as [|[| |]]; cbn [round_nearest_even];
    try destruct (Z.even m); lia.
Qed.

(** Rounding a number below [2^k] gives a finite number below
    [2^(k+1)]. *)
Lemma binary_round_aux_below s m e l k :
  Z.pos (digits2_pos m) + e <= k -> -1074 <= k <= 971 ->
  float_below (k + 1) (binary_round_aux prec emax s (Z.pos m) e l) = true.
Proof.
  intros Hd Hk. unfold binary_round_aux.
  destruct (shr_fexp_digits (Z.pos m) e l ltac:(lia)) as (Hn1 & He1 & Hd1).
  destruct (shr_fexp prec emax (Z.pos m) e l) as [mrs1 e1].
  cbn [fst snd] in Hn1, He1, Hd1.
  pose proof (round_nearest_even_nonneg _ (loc_of_shr_record mrs1) Hn1) as Hr.
  pose proof (round_nearest_even_digits _ (loc_of_shr_record mrs1) Hn1) as Hrd.
  set (m1 := round_nearest_even (shr_m mrs1) (loc_of_shr_record mrs1)) in *.
  destruct (shr_fexp_digits m1 e1 loc_Exact Hr) as (Hn2 & He2 & Hd2).
  destruct (shr_fexp prec emax m1 e1 loc_Exact) as [mrs2 e2].
  cbn [fst snd] in Hn2, He2, Hd2.
  unfold fexp, SpecFloat.emin, prec, emax in *. cbn [Zdigits2] in *.
  pose proof (Pos2Z.is_pos (digits2_pos m)).
  destruct (shr_m mrs2) as [|p|p]; [reflexivity| |lia].
  cbn [Zdigits2] in Hd2.
  destruct (Z.leb_spec e2 (1024 - 53)) as [_|Hbig]; [|lia].
  cbn [float_below]. apply Z.leb_le. lia.
Qed.

Lemma iter_xO_digits m d :
  Z.pos (digits2_pos (Pos.iter xO m d)) = Z.pos (digits2_pos m) + Z.pos d.
Proof.
  induction d as [|d IH] using Pos.peano_ind.
  - cbn. lia.
  - rewrite Pos.iter_succ. cbn [digits2_pos].
    rewrite Pos2Z.inj_succ, IH, Pos2Z.inj_succ. lia.
Qed.

Lemma shl_align_digits m e e' :
  Z.pos (digits2_pos (fst (shl_align m e e'))) + snd (shl_align m e e')
  = Z.pos (digits2_pos m) + e.
Proof.
  unfold shl_align. destruct (e' - e) as [|d|d] eqn:Hd; cbn [fst snd];
    [reflexivity|reflexivity|].
  rewrite iter_xO_digits. lia.
Qed.

Lemma binary_normalize_below z e k :
  Z.abs z < 2 ^ (k - e) -> e < k -> -1074 <= k <= 971 ->
  float_below (k + 1) (binary_normalize prec emax z e false) = true.
Proof.
  intros Hz He Hk.
  assert (Hgen : forall s p, Z.pos p < 2 ^ (k - e) ->
            float_below (k + 1) (binary_round prec emax s p e) = true).
  { intros s p Hp. unfold binary_round.
    pose proof (shl_align_digits p e
                  (fexp prec emax (Z.pos (digits2_pos p) + e))) as Hal.
    destruct (shl_align p e _) as [mz ez]. cbn [fst snd] in Hal.
    apply binary_round_aux_below; [|exact Hk].
    rewrite Hal.
    pose proof (Zdigits2_le (Z.pos p) (k - e) ltac:(lia) ltac:(lia) Hp) as Hle.
    cbn [Zdigits2] in Hle. lia. }
  destruct z as [|p|p]; cbn [binary_normalize]; [reflexivity| |];
    apply Hgen; exact Hz.
Qed.

(** The difference of two numbers below [2^k] is finite, and below
    [2^(k+2)]. *)
Lemma float_sub_below k x y :
  float_below k x = true -> float_below k y = true -> -1074 <= k <= 969 ->
  float_below (k + 2) (float_sub x y) = true.
Proof.
  intros Hx Hy Hk.
  destruct x as [sx|sx| |sx mx ex]; try discriminate Hx;
    destruct y as [sy|sy| |sy my ey]; try discriminate Hy;
    cbn [float_below] in *.
  - destruct sx, sy; reflexivity.
  - cbn. apply Z.leb_le in Hy. apply Z.leb_le. lia.
  - cbn. apply Z.leb_le in Hx. apply Z.leb_le. lia.
  - apply Z.leb_le in Hx, Hy. unfold float_sub, SFsub.
    set (ez := Z.min ex ey).
    replace (k + 2) with (k + 1 + 1) by lia.
    pose proof (Pos2Z.is_pos (digits2_pos mx)).
    pose proof (Pos2Z.is_pos (digits2_pos my)).
    apply binary_normalize_below; [|lia|lia].
    rewrite !shl_align_value by lia.
    pose proof (digits2_pos_bounds mx) as [_ Hux].
    pose proof (digits2_pos_bounds my) as [_ Huy].
    assert (Hpx : Z.pos mx * 2 ^ (ex - ez) < 2 ^ (k - ez)).
    { replace (k - ez) with ((k - ex) + (ex - ez)) by lia.
      rewrite Z.pow_add_r by lia.
      apply Z.mul_lt_mono_pos_r; [apply Z.pow_pos_nonneg; lia|].
      eapply Z.lt_le_trans; [exact Hux|]. apply Z.pow_le_mono_r; lia. }
    assert (Hpy : Z.pos my * 2 ^ (ey - ez) < 2 ^ (k - ez)).
    { replace (k - ez) with ((k - ey) + (ey - ez)) by lia.
      rewrite Z.pow_add_r by lia.
      apply Z.mul_lt_mono_pos_r; [apply Z.pow_pos_nonneg; lia|].
      eapply Z.lt_le_trans; [exact Huy|]. apply Z.pow_le_mono_r; lia. }
    replace (k + 1 - ez) with (Z.succ (k - ez)) by lia.
    rewrite Z.pow_succ_r by lia.
    assert (0 < Z.pos mx * 2 ^ (ex - ez))
      by (apply Z.mul_pos_pos; [lia|apply Z.pow_pos_nonneg; lia]).
    assert (0 < Z.pos my * 2 ^ (ey - ez))
      by (apply Z.mul_pos_pos; [lia|apply Z.pow_pos_nonneg; lia]).
    destruct sx, sy; cbn [cond_Zopp]; lia.
Qed.

Lemma digits2_pos_mul m1 m2 :
  Z.pos (digits2_pos (m1 * m2))
  <= Z.pos (digits2_pos m1) + Z.pos (digits2_pos m2).
Proof.
  pose proof (digits2_pos_bounds m1) as [_ H1].
  pose proof (digits2_pos_bounds m2) as [_ H2].
  change (Z.pos (digits2_pos (m1 * m2))) with (Zdigits2 (Z.pos (m1 * m2))).
  apply Zdigits2_le; [lia|lia|].
  rewrite Z.pow_add_r, Pos2Z.inj_mul by lia. nia.
Qed.

(** A number below [2^k], in milliseconds: finite, and below
    [2^(k+11)]. *)
Lemma float_mul_below k x :
  float_below k x = true -> -1074 <= k <= 961 ->
  float_below (k + 11) (float_mul x (float_of_Z 1000)) = true.
Proof.
  intros Hx Hk.
  assert (E : float_of_Z 1000 = S754_finite false 8796093022208000 (-43))
    by (vm_compute; reflexivity).
  rewrite E. destruct x as [sx|sx| |sx mx ex]; try discriminate Hx.
  - reflexivity.
  - cbn [float_below] in Hx. apply Z.leb_le in Hx.
    unfold float_mul, SFmul. replace (k + 11) with (k + 10 + 1) by lia.
    apply binary_round_aux_below; [|lia].
    pose proof (digits2_pos_mul mx 8796093022208000) as Hm.
    change (Z.pos (digits2_pos 8796093022208000)) with 53 in Hm. lia.
Qed.

Lemma float_below_finite k x : float_below k x = true -> is_finite x = true.
Proof. destruct x; try discriminate; reflexivity. Qed.

(** The milliseconds between two readings below [2^64] are finite. *)
Lemma duration_finite t0 t1 :
  float_below 64 t0 = true -> float_below 64 t1 = true ->
  is_finite (float_mul (float_sub t1 t0) (float_of_Z 1000)) = true.
Proof.
  intros H0 H1. apply (float_below_finite (64 + 2 + 11)).
  apply float_mul_below; [|lia]. apply float_sub_below; [assumption..|lia].
Qed.
End Magnitude.

(** ** The timing interceptor *)

Section MiddlewareFacts.
Import Middleware.
Context {Exn W : Type}.
Variable clock : W -> float * W.
Variable pipeline : Request -> World W -> (Exn + Response) * World W.

(** The three adjacent literals of the [print] call make up the line of
    the interface description. *)
Lemma log_line_literals request_path duration status :
  py "[LOG] Path: " ++ request_path ++ py " | "
  ++ py "Execution Time: " ++ format_2f duration ++ py "ms | "
  ++ py "Status: " ++ str_of_Z status
  = spec_log_line request_path duration status.
Proof. reflexivity. Qed.

(** What one invocation does, in full: one clock reading, the
    continuation, and, only if the continuation returned, a second clock
    reading and one printed record. *)
Lemma invoke_eq request w :
  invoke clock pipeline request w =
  match pipeline request (entered clock w) with
  | (inl e, w2) => (inl e, w2, [ev Time_time; ev (Call_next request)])
  | (inr response, w2) =>
      let line :=
        spec_log_line (path (url request))
          (float_mul (float_sub (fst (clock (env w2))) (fst (clock (env w))))
             (float_of_Z 1000))
          (status_code response) in
      (inr response,
       {| stdout := stdout w2 ++ [line]; env := snd (clock (env w2)) |},
       [ev Time_time; ev (Call_next request); ev Time_time;
        ev (Print_line line)])
  end.
Proof.
  unfold invoke, dispatch, entered, host_call_next, time_time, print, trigger.
  simpl. destruct (clock (env w)) as [start e1]. simpl.
  destruct (pipeline request _) as [[e|response] w2]; [reflexivity|].
  simpl. destruct (clock (env w2)) as [now e3]. reflexivity.
Qed.

(** C1. For every request, [dispatch] returns exactly the response the
    continuation produced: the same status code and the same body, nothing
    altered between the continuation's return and [dispatch]'s. *)
Theorem dispatch_returns_the_response request w response w2 :
  pipeline request (entered clock w) = (inr response, w2) ->
  outcome (invoke clock pipeline request w) = inr response.
Proof. intros H. rewrite invoke_eq, H. reflexivity. Qed.

(** C2. For every request the continuation is invoked exactly once, with
    the request; and when it returns, the second clock reading, the printed
    record and the return all come after it: the reading is taken in the
    world the continuation left. *)
Theorem dispatch_calls_next_exactly_once request w :
  calls_of (trace (invoke clock pipeline request w)) = [request]
  /\ forall response w2,
       pipeline request (entered clock w) = (inr response, w2) ->
       exists line,
         trace (invoke clock pipeline request w)
         = [ev Time_time; ev (Call_next request); ev Time_time;
            ev (Print_line line)]
         /\ line = spec_log_line (path (url request))
                     (float_mul
                        (float_sub (fst (clock (env w2))) (fst (clock (env w))))
                        (float_of_Z 1000))
                     (status_code response)
         /\ final (invoke clock pipeline request w)
            = {| stdout := stdout w2 ++ [line]; env := snd (clock (env w2)) |}.
Proof.
  rewrite invoke_eq. split.
  - destruct (pipeline request _) as [[e|response] w2]; reflexivity.
  - intros response w2 H. rewrite H. eexists. repeat split.
Qed.

(** C3. If the continuation raises, [dispatch] raises the same error, and
    nothing is printed: the world is the one the continuation left. *)
Theorem dispatch_propagates_the_error request w e w2 :
  pipeline request (entered clock w) = (inl e, w2) ->
  outcome (invoke clock pipeline request w) = inl e
  /\ prints_of (trace (invoke clock pipeline request w)) = []
  /\ final (invoke clock pipeline request w) = w2.
Proof. intros H. rewrite invoke_eq, H. repeat split. Qed.

(** C4. For every request the continuation completes, exactly one record
    is printed, and it is the line
    [[LOG] Path: <path> | Execution Time: <duration>ms | Status: <status_code>]
    with the request's path, the elapsed milliseconds and the status code
    of the returned response.  The elapsed milliseconds are finite when the
    two clock readings are below [2^64]; and a finite duration is written
    as digits, a point and exactly two digits, with a minus sign in front
    exactly when its sign bit is set, and reads back as the number of
    hundredths nearest to it, the even one on a tie. *)
Theorem dispatch_prints_one_log_line request w response w2 :
  pipeline request (entered clock w) = (inr response, w2) ->
  let start_time := fst (clock (env w)) in
  let end_time := fst (clock (env w2)) in
  let duration :=
    float_mul (float_sub end_time start_time) (float_of_Z 1000) in
  let line :=
    py "[LOG] Path: " ++ path (url request) ++ py " | Execution Time: "
    ++ format_2f duration ++ py "ms | Status: "
    ++ str_of_Z (status_code response) in
  prints_of (trace (invoke clock pipeline request w)) = [line]
  /\ stdout (final (invoke clock pipeline request w)) = stdout w2 ++ [line]
  /\ (float_below 64 start_time = true -> float_below 64 end_time = true ->
      is_finite duration = true)
  /\ (is_finite duration = true ->
      two_decimals (format_2f duration) = true
      /\ startswith (py "-") (format_2f duration) = float_signbit duration
      /\ exists n,
           read_hundredths (format_2f duration) = Some n
           /\ nearest_hundredths (float_value duration) n).
Proof.
  intros H start_time end_time duration line. rewrite invoke_eq, H.
  split; [reflexivity|]. split; [reflexivity|]. split.
  - intros H0 H1. apply duration_finite; assumption.
  - intros Hfin. split; [apply format_2f_two_decimals, Hfin|].
    split; [apply format_2f_sign, Hfin|apply format_2f_nearest, Hfin].
Qed.

(** C6, as amended.  When the second clock reading is not smaller than
    the first, the duration in milliseconds that the record reports is not
    negative. *)
Theorem dispatch_duration_nonneg request w response w2 :
  pipeline request (entered clock w) = (inr response, w2) ->
  let start_time := fst (clock (env w)) in
  let end_time := fst (clock (env w2)) in
  let duration :=
    float_mul (float_sub end_time start_time) (float_of_Z 1000) in
  timestamp_ok start_time = true -> timestamp_ok end_time = true ->
  float_leb start_time end_time = true ->
  prints_of (trace (invoke clock pipeline request w))
  = [spec_log_line (path (url request)) duration (status_code response)]
  /\ float_leb (float_of_Z 0) duration = true.
Proof.
  intros H start_time end_time duration Hs He Hle.
  rewrite invoke_eq, H. split; [reflexivity|].
  apply andb_true_iff in Hs as [Fs Vs]. apply andb_true_iff in He as [Fe Ve].
  apply float_nonneg_leb, float_mul_nonneg, float_sub_nonneg; assumption.
Qed.
End MiddlewareFacts.

(** *** The interceptor on sample environments *)

Section MiddlewareSamples.
Import Middleware Samples.

Lemma dispatch_returns_the_response_witness :
  ok_pipeline summaries_request (entered playback fresh)
  = (inr ok_response, {| stdout := []; env := [t_end] |})
  /\ outcome (invoke playback ok_pipeline summaries_request fresh)
     = inr ok_response.
Proof.
  split; [reflexivity|].
  apply (dispatch_returns_the_response playback ok_pipeline summaries_request
           fresh ok_response {| stdout := []; env := [t_end] |}).
  reflexivity.
Defined.

Lemma dispatch_calls_next_exactly_once_witness :
  calls_of (trace (invoke playback ok_pipeline summaries_request fresh))
  = [summaries_request]
  /\ trace (invoke playback ok_pipeline summaries_request fresh)
     = [ev Time_time; ev (Call_next summaries_request); ev Time_time;
        ev (Print_line (py "[LOG] Path: /summaries | Execution Time: 250.00ms | Status: 200"))].
Proof.
  destruct (dispatch_calls_next_exactly_once playback ok_pipeline
              summaries_request fresh) as [Hcalls Hafter].
  split; [exact Hcalls|].
  destruct (Hafter ok_response {| stdout := []; env := [t_end] |} eq_refl)
    as (line & Htrace & Hline & _).
  rewrite Htrace, Hline. reflexivity.
Defined.

Lemma dispatch_propagates_the_error_witness :
  failing_pipeline summaries_request (entered playback fresh)
  = (inl "boom"%string, {| stdout := []; env := [t_end] |})
  /\ outcome (invoke playback failing_pipeline summaries_request fresh)
     = inl "boom"%string
  /\ prints_of (trace (invoke playback failing_pipeline summaries_request fresh))
     = []
  /\ final (invoke playback failing_pipeline summaries_request fresh)
     = {| stdout := []; env := [t_end] |}.
Proof.
  split; [reflexivity|].
  apply (dispatch_propagates_the_error playback failing_pipeline
           summaries_request fresh "boom"%string).
  reflexivity.
Defined.

Lemma dispatch_prints_one_log_line_witness :
  ok_pipeline summaries_request (entered playback uneven)
  = (inr ok_response, {| stdout := []; env := [t_uneven] |})
  /\ prints_of (trace (invoke playback ok_pipeline summaries_request uneven))
     = [py "[LOG] Path: /summaries | Execution Time: 864.26ms | Status: 200"]
  /\ two_decimals (py "864.26") = true
  /\ startswith (py "-") (py "864.26") = false
  /\ exists n,
       read_hundredths (py "864.26") = Some n
       /\ nearest_hundredths
            (float_value
               (float_mul (float_sub t_uneven t_start) (float_of_Z 1000))) n.
Proof.
  split; [reflexivity|].
  destruct (dispatch_prints_one_log_line playback ok_pipeline summaries_request
              uneven ok_response {| stdout := []; env := [t_uneven] |} eq_refl)
    as (Hprints & _ & Hfinite & Hfield).
  split; [exact Hprints|].
  exact (Hfield (Hfinite eq_refl eq_refl)).
Defined.

Lemma dispatch_duration_nonneg_witness :
  timestamp_ok t_start = true /\ timestamp_ok t_end = true
  /\ float_leb t_start t_end = true
  /\ float_leb (float_of_Z 0)
       (float_mul (float_sub t_end t_start) (float_of_Z 1000)) = true.
Proof.
  repeat (split; [reflexivity|]).
  apply (dispatch_duration_nonneg playback ok_pipeline summaries_request fresh
           ok_response {| stdout := []; env := [t_end] |} eq_refl);
    reflexivity.
Defined.
End MiddlewareSamples.

(** ** The probe script *)

Section ProbeFacts.
Import TestManual Probe.
Variable repr : pyvalue -> str.
Context {W : Type}.
Variable post : str -> pyvalue -> Z -> W -> (exn + Response) * W.

Ltac run_step :=
  cbn [bind print trigger try_except requests_post response_json getitem
       method_split run handle stdout env outcome final trace fst snd
       posts_of prints_of flat_map projT2 app].

Ltac not_among F :=
  repeat (destruct F as [F|F]; [discriminate F|]); exfalso; exact F.


Lemma posts_of_app tr1 tr2 :
  posts_of (tr1 ++ tr2) = posts_of tr1 ++ posts_of tr2.
Proof. apply flat_map_app. Qed.

(** *** Programs that make no call, programs that always return *)

Lemma silent_ret {A} (a : A) : silent post (Ret a).
Proof. intros w. reflexivity. Qed.

Lemma silent_raise {A} e : silent post (Raise (A := A) e).
Proof. intros w. reflexivity. Qed.

Lemma silent_print line : silent post (print line).
Proof. intros w. reflexivity. Qed.

Lemma silent_print_data line : silent post (print_data line).
Proof.
  unfold print_data. destruct (encodable line);
    [apply silent_print|apply silent_raise].
Qed.

(** The calls of [p] followed by a silent [f] are the calls of [p]. *)
Lemma posts_bind_silent {A B} (p : prog exn event A)
    (f : A -> prog exn event B) w :
  (forall a, silent post (f a)) ->
  posts_of (trace (run (handle post) (bind p f) w))
  = posts_of (trace (run (handle post) p w)).
Proof.
  intros Hf. rewrite run_bind.
  destruct (run (handle post) p w) as [[[e|a] w1] tr1]; [reflexivity|].
  specialize (Hf a w1). destruct (run (handle post) (f a) w1) as [[o w2] tr2].
  cbn [trace snd] in *. rewrite posts_of_app, Hf. apply app_nil_r.
Qed.

Lemma silent_bind {A B} (p : prog exn event A) (f : A -> prog exn event B) :
  silent post p -> (forall a, silent post (f a)) -> silent post (bind p f).
Proof. intros Hp Hf w. rewrite posts_bind_silent by exact Hf. apply Hp. Qed.

Lemma silent_response_json response : silent post (response_json response).
Proof.
  unfold response_json. destruct (Response.json response); intros w; reflexivity.
Qed.

Lemma silent_getitem data key : silent post (getitem data key).
Proof.
  destruct data; try (intros w; reflexivity).
  unfold getitem. destruct (d !! key); intros w; reflexivity.
Qed.

Lemma silent_method_split v : silent post (method_split v).
Proof. destruct v; intros w; reflexivity. Qed.

Lemma completes_print line : completes post (print line) [].
Proof. intros w. split; reflexivity. Qed.

Lemma completes_bind p q calls1 calls2 :
  completes post p calls1 -> completes post q calls2 ->
  completes post (p ;; q)%prog (calls1 ++ calls2).
Proof.
  intros Hp Hq w. rewrite run_bind. destruct (Hp w) as [Ho Hc].
  destruct (run (handle post) p w) as [[[e|[]] w1] tr1]; [discriminate|].
  destruct (Hq w1) as [Ho' Hc'].
  destruct (run (handle post) q w1) as [[o w2] tr2].
  cbn [outcome trace fst snd] in *. split; [assumption|].
  rewrite posts_of_app. congruence.
Qed.

(** A [try] whose handlers all return without a call returns, whatever
    its body does. *)
Lemma completes_try_except body handler calls :
  (forall w, posts_of (trace (run (handle post) body w)) = calls) ->
  (forall e, completes post (handler e) []) ->
  completes post (try_except body handler) calls.
Proof.
  intros Hb Hh w. unfold try_except. cbn [run]. specialize (Hb w).
  destruct (run (handle post) body w) as [[[e|[]] w1] tr1];
    cbn [trace snd] in Hb.
  - destruct (Hh e w1) as [Ho Hc].
    destruct (run (handle post) (handler e) w1) as [[[e2|[]] w2] tr2];
      [discriminate|].
    cbn [outcome trace fst snd] in *. split; [reflexivity|].
    rewrite !posts_of_app, Hb, Hc. cbn. apply app_nil_r.
  - cbn [outcome trace fst snd]. split; [reflexivity|].
    rewrite posts_of_app, Hb. apply app_nil_r.
Qed.

Lemma posts_requests_post url json timeout w :
  posts_of (trace (run (handle post) (requests_post url json timeout) w))
  = [(url, json, timeout)].
Proof.
  unfold requests_post, trigger. cbn [run handle].
  destruct (post url json timeout (env w)) as [[e|response] e']; reflexivity.
Qed.

Ltac silence :=
  repeat first
    [ apply silent_print | apply silent_print_data | apply silent_ret
    | apply silent_raise
    | apply silent_response_json | apply silent_getitem
    | apply silent_method_split
    | apply silent_bind; [|intros ?]
    | match goal with |- silent _ (if ?c then _ else _) => destruct c end ].

Lemma test_summaries_completes text description :
  completes post (test_summaries repr text description) [summaries_call text].
Proof.
  unfold test_summaries.
  do 5 (apply (completes_bind _ _ []); [apply completes_print|]).
  apply completes_try_except.
  - intros w. rewrite posts_bind_silent; [apply posts_requests_post|].
    intros response. silence.
  - intros e. destruct e; try apply completes_print.
    apply (completes_bind _ _ [] []); apply completes_print.
Qed.

(** X1. Whatever the HTTP call comes to (any response, any body, any
    exception), [test_summaries] returns normally, and it has made exactly
    one call: a POST of [{"text": text}] to [BASE_URL/summaries] with a
    timeout of 5 seconds. *)
Theorem test_summaries_always_returns text description w :
  outcome (run (handle post) (test_summaries repr text description) w) = inr tt
  /\ posts_of (trace (run (handle post) (test_summaries repr text description) w))
     = [ (BASE_URL ++ py "/summaries", PDict {[ py "text" := PStr text ]}, 5) ].
Proof. apply test_summaries_completes. Qed.

Lemma test_empty_string_completes :
  completes post test_empty_string [summaries_call (py "")].
Proof.
  unfold test_empty_string.
  do 3 (apply (completes_bind _ _ []); [apply completes_print|]).
  apply completes_try_except.
  - intros w. rewrite posts_bind_silent; [apply posts_requests_post|].
    intros response. silence.
  - intros e. apply completes_print.
Qed.

(** X2. Whatever the seven HTTP calls come to, [main] returns normally
    (the process exits with status 0), and it has made the seven calls in
    the order of the source: the six texts of [test_summaries], then the
    empty string. *)
Theorem main_makes_seven_calls_and_exits_zero w :
  outcome (run (handle post) (main repr) w) = inr tt
  /\ posts_of (trace (run (handle post) (main repr) w))
     = map summaries_call (main_texts ++ [py ""])
  /\ exit_code (outcome (run (handle post) (main repr) w)) = 0.
Proof.
  assert (H : completes post (main repr)
                (map summaries_call (main_texts ++ [py ""]))).
  { unfold main.
    do 3 (apply (completes_bind _ _ []); [apply completes_print|]).
    do 6 (apply (completes_bind _ _ [_]); [apply test_summaries_completes|]).
    apply (completes_bind _ _ [_] []); [apply test_empty_string_completes|].
    do 2 (apply (completes_bind _ _ [] []); [apply completes_print|]).
    apply completes_print. }
  destruct (H w) as [Ho Hc]. rewrite Ho. repeat split. exact Hc.
Qed.


(** *** [test_summaries] on a 200 response *)


(** What a readable body holds. *)
Lemma readable_summary_fields body summary :
  readable_summary repr body = Some summary ->
  exists d a t,
    body = inr (PDict d)
    /\ d !! py "summary" = Some (PStr summary)
    /\ d !! py "word_count" = Some a
    /\ d !! py "timestamp" = Some t
    /\ encodable (py "Summary: " ++ summary) = true
    /\ encodable (py "API word_count field: " ++ format_value repr a) = true
    /\ encodable (py "Timestamp: " ++ format_value repr t) = true.
Proof.
  unfold readable_summary. intros H.
  destruct body as [msg|data]; [discriminate H|].
  destruct data as [ |b|z|x|s|l|d]; try discriminate H.
  destruct (d !! py "summary") as [[ |b|z|x|s|l|d']|] eqn:Hs;
    try discriminate H.
  destruct (d !! py "word_count") as [a|] eqn:Ha; [|discriminate H].
  destruct (d !! py "timestamp") as [t|] eqn:Ht; [|discriminate H].
  destruct (encodable (py "Summary: " ++ s)) eqn:E1; [|discriminate H].
  destruct (encodable (py "API word_count field: " ++ format_value repr a))
    eqn:E2; [|discriminate H].
  destruct (encodable (py "Timestamp: " ++ format_value repr t)) eqn:E3;
    [|discriminate H].
  injection H as <-. exists d, a, t.
  repeat (split; [first [reflexivity|assumption]|]). assumption.
Qed.



(** On a 200 response with a readable body, the script prints its report
    and then the line of the check. *)
Lemma test_summaries_ok_prints text description w response e' summary :
  post (BASE_URL ++ py "/summaries") (PDict {[ py "text" := PStr text ]}) 5
    (env w) = (inr response, e') ->
  Response.status_code response = 200 ->
  readable_summary repr (Response.json response) = Some summary ->
  exists a t,
    prints_of (trace (run (handle post) (test_summaries repr text description) w))
    = report_lines repr text description summary a t
      ++ [check_line (len (split text)) (len (split summary))].
Proof.
  intros Hpost Hcode Hbody.
  destruct (readable_summary_fields _ _ Hbody)
    as (d & a & t & Hjson & Hs & Ha & Ht & E1 & E2 & E3).
  exists a, t. unfold test_summaries, print_data. run_step.
  rewrite Hpost. run_step. rewrite Hcode. cbn [Z.eqb Pos.eqb]. run_step.
  unfold response_json. rewrite Hjson. run_step.
  rewrite Hs. run_step. cbn [format_value]. rewrite E1. run_step.
  rewrite Ha. run_step. rewrite E2. run_step.
  rewrite Ht. run_step. rewrite E3. run_step.
  unfold check_line.
  set (n := len (split text)). set (k := len (split summary)).
  destruct (n >? 10); [|destruct (n =? 10)];
    destruct (k =? _); reflexivity.
Qed.



Lemma check_line_mismatch n k :
  k <> expected_count n ->
  check_line n k
  = py "❌ Error: Expected " ++ str_of_Z (expected_count n)
    ++ py " words, got " ++ str_of_Z k.
Proof.
  unfold check_line, expected_count. intros Hk.
  destruct (n >? 10) eqn:Hgt.
  - apply Z.gtb_lt in Hgt. rewrite Z.min_l by lia.
    destruct (Z.eqb_spec k 10) as [E|E]; [lia|reflexivity].
  - assert (n <= 10) by (destruct (Z.gtb_spec n 10); [discriminate|lia]).
    rewrite Z.min_r in * by lia.
    destruct (Z.eqb_spec n 10) as [En|En].
    + subst n. destruct (Z.eqb_spec k 10) as [E|E]; [lia|reflexivity].
    + destruct (Z.eqb_spec k n) as [E|E]; [lia|reflexivity].
Qed.


(** X4. On a 200 response with a readable body, when the summary does
    not have the expected number of words, the last line printed names both
    counts: "Error: Expected <min(10, n)> words, got <k>". *)
Theorem test_summaries_mismatch_line
    text description w response e' summary :
  post (BASE_URL ++ py "/summaries") (PDict {[ py "text" := PStr text ]}) 5
    (env w) = (inr response, e') ->
  Response.status_code response = 200 ->
  readable_summary repr (Response.json response) = Some summary ->
  len (split summary) <> expected_count (len (split text)) ->
  last (prints_of (trace (run (handle post)
                            (test_summaries repr text description) w)))
  = Some (py "❌ Error: Expected "
          ++ str_of_Z (expected_count (len (split text)))
          ++ py " words, got " ++ str_of_Z (len (split summary))).
Proof.
  intros Hpost Hcode Hbody Hk.
  destruct (test_summaries_ok_prints text description w response e' summary
              Hpost Hcode Hbody) as (a & t & ->).
  rewrite last_snoc. f_equal. now apply check_line_mismatch.
Qed.



(** X7. When the HTTP call of [test_summaries] raises, a connection
    error is reported by two fixed lines, the second being the hint to
    start the server; any other exception is reported by one line,
    "Error: " followed by the exception's text.  Nothing else follows the
    heading. *)
Theorem test_summaries_call_raises text description w e e' :
  post (BASE_URL ++ py "/summaries") (PDict {[ py "text" := PStr text ]}) 5
    (env w) = (inl e, e') ->
  prints_of (trace (run (handle post) (test_summaries repr text description) w))
  = heading text description
    ++ (if is_generic e then [ py "❌ Error: " ++ exn_str e ]
        else [ py "❌ Error: Could not connect to server.";
               remediation_hint ]).
Proof.
  intros Hpost. unfold test_summaries, heading, remediation_hint. run_step.
  rewrite Hpost. run_step. destruct e; reflexivity.
Qed.

(** *** The empty string case of [main] *)


(** X9. In the empty string case every exception of the HTTP call, a
    connection error included, is reported by the one line "Error: "
    followed by the exception's text: the hint to start the server, which
    [test_summaries] prints on a connection error, is not printed here. *)
Theorem empty_string_case_call_raises w e e' :
  post (BASE_URL ++ py "/summaries") (PDict {[ py "text" := PStr (py "") ]}) 5
    (env w) = (inl e, e') ->
  let r := run (handle post) test_empty_string w in
  outcome r = inr tt
  /\ prints_of (trace r) = empty_string_heading ++ [ py "❌ Error: " ++ exn_str e ]
  /\ ~ In remediation_hint (prints_of (trace r)).
Proof.
  intros H r. subst r.
  unfold test_empty_string, empty_string_heading, remediation_hint.
  run_step. rewrite H. run_step. repeat split. intros F. not_among F.
Qed.
End ProbeFacts.

(** *** The probe script against sample servers *)

Section ProbeSampleRuns.
Import TestManual Probe ProbeSamples MoreSamples.

Ltac not_among_lines F :=
  repeat (destruct F as [F|F]; [discriminate F|]); exfalso; exact F.

Ltac among_lines := repeat first [left; reflexivity | right].



(** A summary that standard output cannot encode: the line of the summary
    is not printed, and what is reported is the complaint of the
    encoder. *)
Example test_summaries_lone_surrogate :
  prints_of (trace (run (handle (answering lone_surrogate_response))
                      (test_summaries plain_repr (py "Hello")
                         (py "Single word"))
                      blank))
  = heading (py "Hello") (py "Single word")
    ++ [ py "Status Code: 200";
         py "✅ Success!";
         py "❌ Error: 'utf-8' codec can't encode character '\ud800' in position 9: surrogates not allowed" ].
Proof. vm_compute. reflexivity. Qed.

Lemma test_summaries_mismatch_line_witness :
  last (prints_of (trace (run (handle (answering full_response))
                            (test_summaries plain_repr
                               (py "Hello world from the API")
                               (py "Less than 10 words (should return all words)"))
                            blank)))
  = Some (py "❌ Error: Expected 5 words, got 1").
Proof.
  rewrite (test_summaries_mismatch_line plain_repr
           (answering full_response) (py "Hello world from the API")
           (py "Less than 10 words (should return all words)") blank
           full_response tt (py "Hello")).
  - reflexivity.
  - reflexivity.
  - reflexivity.
  - vm_compute. reflexivity.
  - vm_compute. discriminate.
Defined.



Lemma test_summaries_call_raises_witness :
  prints_of (trace (run (handle refusing)
                      (test_summaries plain_repr (py "Hello") (py "Single word"))
                      blank))
  = heading (py "Hello") (py "Single word")
    ++ [ py "❌ Error: Could not connect to server."; remediation_hint ].
Proof.
  exact (test_summaries_call_raises plain_repr refusing (py "Hello")
           (py "Single word") blank
           (ConnectionError (py "Connection refused")) tt eq_refl).
Defined.


Lemma empty_string_case_call_raises_witness :
  prints_of (trace (run (handle refusing) test_empty_string blank))
  = empty_string_heading ++ [ py "❌ Error: Connection refused" ].
Proof.
  destruct (empty_string_case_call_raises refusing blank
              (ConnectionError (py "Connection refused")) tt eq_refl)
    as (_ & H & _).
  exact H.
Defined.

(** C8, at the input on which the code departs from it.  A server that
    answers the six calls of [test_summaries] and is gone at the seventh:
    [main] makes its seven calls and returns normally, and the connection
    error of the empty string case is reported by the line of the clause
    for any exception, without the line "Could not connect to server." and
    without the hint to start the server that [test_summaries] prints for
    the same error. *)
Theorem main_empty_string_case_gives_no_hint :
  outcome (run (handle (going_away not_found_response 6)) (main plain_repr)
             unvisited) = inr tt
  /\ posts_of (trace (run (handle (going_away not_found_response 6))
                        (main plain_repr) unvisited))
     = map summaries_call (main_texts ++ [py ""])
  /\ env (final (run (handle (going_away not_found_response 6))
                   (main plain_repr) unvisited)) = 7%nat
  /\ In (py "❌ Error: Connection refused")
       (prints_of (trace (run (handle (going_away not_found_response 6))
                            (main plain_repr) unvisited)))
  /\ ~ In (py "❌ Error: Could not connect to server.")
       (prints_of (trace (run (handle (going_away not_found_response 6))
                            (main plain_repr) unvisited)))
  /\ ~ In remediation_hint
       (prints_of (trace (run (handle (going_away not_found_response 6))
                            (main plain_repr) unvisited)))
  /\ In remediation_hint
       (prints_of (trace (run (handle (going_away not_found_response 0))
                            (test_summaries plain_repr (py "Hello")
                               (py "Single word"))
                            unvisited))).
Proof.
  split; [vm_compute; reflexivity|].
  split; [vm_compute; reflexivity|].
  split; [vm_compute; reflexivity|].
  split; [vm_compute; among_lines|].
  split; [vm_compute; intros F; not_among_lines F|].
  split; [vm_compute; intros F; not_among_lines F|].
  vm_compute. among_lines.
Qed.
End ProbeSampleRuns.

(** ** The interceptor around any continuation *)

Section MiddlewareMore.
Import Middleware.
Context {Exn W : Type}.
Variable clock : W -> float * W.
Variable pipeline : Request -> World W -> (Exn + Response) * World W.

Lemma calls_of_app tr1 tr2 :
  calls_of (tr1 ++ tr2) = calls_of tr1 ++ calls_of tr2.
Proof. apply flat_map_app. Qed.

Lemma log_prints_of_app tr1 tr2 :
  prints_of (tr1 ++ tr2) = prints_of tr1 ++ prints_of tr2.
Proof. apply flat_map_app. Qed.

(** [dispatch] with any program for [call_next]: a clock reading, the
    program, and, only if it returned, a second reading and the record. *)
Lemma dispatch_run request (call_next : Request -> prog Exn event Response) w :
  run (handle clock pipeline) (dispatch request call_next) w =
  match run (handle clock pipeline) (call_next request) (entered clock w) with
  | (inl e, w2, tr) => (inl e, w2, ev Time_time :: tr)
  | (inr response, w2, tr) =>
      let line :=
        spec_log_line (path (url request))
          (float_mul (float_sub (fst (clock (env w2))) (fst (clock (env w))))
             (float_of_Z 1000))
          (status_code response) in
      (inr response,
       {| stdout := stdout w2 ++ [line]; env := snd (clock (env w2)) |},
       ev Time_time :: tr ++ [ev Time_time; ev (Print_line line)])
  end.
Proof.
  unfold dispatch, entered, time_time, trigger.
  cbn [bind run handle]. destruct (clock (env w)) as [start e1]. cbn [fst snd].
  rewrite run_bind.
  destruct (run (handle clock pipeline) (call_next request) _)
    as [[[e|response] w2] tr]; [reflexivity|].
  cbn [bind run handle print trigger]. destruct (clock (env w2)) as [now e3].
  reflexivity.
Qed.

(** X10. Whatever program is passed as [call_next] (it may itself read the
    clock, print, call further down, raise), [dispatch] returns what that
    program returns and raises what it raises, invokes nothing of its own
    further down the pipeline, and adds to what the program printed one
    record at the end if the program returned, and nothing if it raised. *)
Theorem dispatch_transparent_around_any_continuation
    request (call_next : Request -> prog Exn event Response) w :
  let inner :=
    run (handle clock pipeline) (call_next request) (entered clock w) in
  let r := run (handle clock pipeline) (dispatch request call_next) w in
  outcome r = outcome inner
  /\ calls_of (trace r) = calls_of (trace inner)
  /\ prints_of (trace r)
     = prints_of (trace inner)
       ++ match outcome inner with
          | inr response =>
              [spec_log_line (path (url request))
                 (float_mul
                    (float_sub (fst (clock (env (final inner))))
                       (fst (clock (env w))))
                    (float_of_Z 1000))
                 (status_code response)]
          | inl _ => []
          end.
Proof.
  intros inner r. subst r. rewrite dispatch_run. fold inner.
  destruct inner as [[[e|response] w2] tr]; cbn [outcome final trace fst snd].
  - repeat split. cbn [prints_of flat_map projT2 ev app].
    now rewrite app_nil_r.
  - change (ev Time_time :: tr ++ ?l) with ([ev Time_time] ++ tr ++ l).
    rewrite !calls_of_app, !log_prints_of_app.
    cbn [calls_of prints_of flat_map projT2 ev app]. rewrite app_nil_r.
    repeat split.
Qed.

(** X11. Two interceptors stacked around one pipeline: the pipeline is
    invoked once; if it returns, its response is returned unmodified and
    two records are printed, the inner one first, each with the duration
    between its own two clock readings; if it raises, the error goes
    through both interceptors and nothing is printed. *)
Theorem stacked_dispatch request w :
  let r :=
    run (handle clock pipeline)
      (dispatch request (fun inner => dispatch inner host_call_next)) w in
  let e1 := snd (clock (env w)) in
  calls_of (trace r) = [request]
  /\ match pipeline request (entered clock (entered clock w)) with
     | (inl e, w2) =>
         outcome r = inl e /\ prints_of (trace r) = [] /\ final r = w2
     | (inr response, w2) =>
         let e3 := snd (clock (env w2)) in
         outcome r = inr response
         /\ prints_of (trace r)
            = [ spec_log_line (path (url request))
                  (float_mul
                     (float_sub (fst (clock (env w2))) (fst (clock e1)))
                     (float_of_Z 1000))
                  (status_code response);
                spec_log_line (path (url request))
                  (float_mul
                     (float_sub (fst (clock e3)) (fst (clock (env w))))
                     (float_of_Z 1000))
                  (status_code response) ]
     end.
Proof.
  intros r e1. subst r e1. rewrite dispatch_run.
  change (run (handle clock pipeline) (dispatch request host_call_next)
            (entered clock w))
    with (invoke clock pipeline request (entered clock w)).
  rewrite invoke_eq.
  destruct (pipeline request (entered clock (entered clock w)))
    as [[e|response] w2].
  - repeat split.
  - repeat split.
Qed.
End MiddlewareMore.

(** ** A clock set back *)

Section ClockSetBack.
Import Middleware.

Lemma binary_round_aux_signbit m e l :
  0 <= m -> float_signbit (binary_round_aux prec emax true m e l) = true.
Proof.
  intros H. unfold binary_round_aux.
  pose proof (shr_fexp_nonneg m e l H) as H1.
  destruct (shr_fexp prec emax m e l) as [mrs1 e1]. simpl in H1.
  pose proof (shr_fexp_nonneg _ e1 loc_Exact
                (round_nearest_even_nonneg _ (loc_of_shr_record mrs1) H1)) as H2.
  destruct (shr_fexp prec emax _ e1 loc_Exact) as [mrs2 e2]. simpl in H2.
  destruct (shr_m mrs2) as [|p|p]; [reflexivity| |lia].
  destruct (e2 <=? emax - prec); reflexivity.
Qed.

Lemma binary_normalize_signbit m e :
  m < 0 -> float_signbit (binary_normalize prec emax m e false) = true.
Proof.
  intros H. destruct m as [|p|p]; [lia|lia|].
  unfold binary_normalize, binary_round.
  destruct (shl_align p e _) as [mz ez]. now apply binary_round_aux_signbit.
Qed.

Lemma float_mul_signbit x :
  float_signbit x = true ->
  float_signbit (float_mul x (float_of_Z 1000)) = true.
Proof.
  destruct x as [s|s| |s m e]; try discriminate; simpl; intros H.
  - now rewrite xorb_false_r.
  - now rewrite xorb_false_r.
  - subst s. now apply binary_round_aux_signbit.
Qed.

Lemma float_signbit_leb x :
  float_signbit x = true -> float_leb x (float_of_Z 0) = true.
Proof. destruct x as [[|]|[|]| |[|] m e]; try discriminate; reflexivity. Qed.

Lemma format_2f_signbit x :
  float_signbit x = true -> startswith (py "-") (format_2f x) = true.
Proof.
  destruct x as [s|s| |s m e]; try discriminate; simpl; intros H; subst s;
    reflexivity.
Qed.

(** Of two canonical positive numbers, the one with the smaller exponent
    is strictly the smaller. *)
Lemma canonical_lt_exp_strict m1 e1 m2 e2 :
  canonical_mantissa prec emax m1 e1 = true ->
  canonical_mantissa prec emax m2 e2 = true ->
  e1 < e2 -> Z.pos m1 < Z.pos m2 * 2 ^ (e2 - e1).
Proof.
  intros H1 H2 He.
  destruct (canonical_bounds _ _ H1) as (Hm1 & Hemin & _).
  destruct (canonical_bounds _ _ H2) as (_ & _ & Hm2).
  specialize (Hm2 ltac:(lia)).
  assert (2 ^ 1 <= 2 ^ (e2 - e1)) by (apply Z.pow_le_mono_r; lia).
  change (2 ^ 53) with (2 ^ 52 * 2 ^ 1) in Hm1. nia.
Qed.

(** The difference of two timestamps, the first strictly smaller, has
    its sign bit set. *)
Lemma float_sub_signbit now start :
  timestamp_ok start = true -> timestamp_ok now = true ->
  float_ltb now start = true ->
  float_signbit (float_sub now start) = true.
Proof.
  intros Hs Hn Hlt.
  apply andb_true_iff in Hs as [Fs Vs]. apply andb_true_iff in Hn as [Fn Vn].
  destruct now as [sn|sn| |sn mn en]; try discriminate;
  destruct start as [ss|ss| |ss ms es]; try discriminate.
  - destruct ss; [discriminate|reflexivity].
  - destruct sn; [reflexivity|discriminate].
  - unfold float_sub, SFsub. apply binary_normalize_signbit.
    rewrite !shl_align_value by lia.
    simpl in Vs, Vn. unfold bounded in Vs, Vn.
    apply andb_true_iff in Vs as [Cs _]. apply andb_true_iff in Vn as [Cn _].
    unfold float_ltb, SFltb, SFcompare in Hlt.
    destruct sn, ss; simpl cond_Zopp; try discriminate.
    + (* both negative *)
      destruct (Z.compare_spec en es) as [He|He|He]; try discriminate.
      * subst en. rewrite Z.min_id, Z.sub_diag, !Z.mul_1_r.
        rewrite Pos.compare_cont_spec in Hlt. simpl in Hlt.
        destruct (Pos.compare_spec mn ms) as [Hm|Hm|Hm]; try discriminate; lia.
      * rewrite Z.min_r by lia. rewrite Z.sub_diag, Z.mul_1_r.
        pose proof (canonical_lt_exp_strict _ _ _ _ Cs Cn He). lia.
    + (* now negative, start positive *) lia.
    + (* both positive *)
      destruct (Z.compare_spec en es) as [He|He|He]; try discriminate.
      * subst en. rewrite Z.min_id, Z.sub_diag, !Z.mul_1_r.
        rewrite Pos.compare_cont_spec in Hlt. simpl in Hlt.
        destruct (Pos.compare_spec mn ms) as [Hm|Hm|Hm]; try discriminate; lia.
      * rewrite Z.min_l by lia. rewrite Z.sub_diag, Z.mul_1_r.
        pose proof (canonical_lt_exp_strict _ _ _ _ Cn Cs He). lia.
Qed.

Context {Exn W : Type}.
Variable clock : W -> float * W.
Variable pipeline : Request -> World W -> (Exn + Response) * World W.

(** X12. The two readings come from the wall clock, and nothing is
    clamped: when the second reading is smaller than the first, the record
    reports a duration with a minus sign, and the duration compares as not
    above zero. *)
Theorem dispatch_duration_negative_when_clock_set_back
    request w response w2 :
  pipeline request (entered clock w) = (inr response, w2) ->
  let start_time := fst (clock (env w)) in
  let end_time := fst (clock (env w2)) in
  let duration :=
    float_mul (float_sub end_time start_time) (float_of_Z 1000) in
  timestamp_ok start_time = true -> timestamp_ok end_time = true ->
  float_ltb end_time start_time = true ->
  prints_of (trace (invoke clock pipeline request w))
  = [spec_log_line (path (url request)) duration (status_code response)]
  /\ startswith (py "-") (format_2f duration) = true
  /\ float_leb duration (float_of_Z 0) = true.
Proof.
  intros H start_time end_time duration Hs He Hlt.
  rewrite invoke_eq, H. split; [reflexivity|].
  assert (Hd : float_signbit duration = true)
    by (apply float_mul_signbit, float_sub_signbit; assumption).
  split; [now apply format_2f_signbit | now apply float_signbit_leb].
Qed.
End ClockSetBack.

Section MoreMiddlewareSamples.
Import Middleware Samples MoreSamples.

Lemma dispatch_duration_negative_when_clock_set_back_witness :
  timestamp_ok t_end = true /\ timestamp_ok t_start = true
  /\ float_ltb t_start t_end = true
  /\ prints_of (trace (invoke playback ok_pipeline summaries_request set_back))
     = [py "[LOG] Path: /summaries | Execution Time: -250.00ms | Status: 200"].
Proof.
  repeat (split; [reflexivity|]).
  destruct (dispatch_duration_negative_when_clock_set_back playback ok_pipeline
              summaries_request set_back ok_response
              {| stdout := []; env := [t_start] |} eq_refl
              eq_refl eq_refl eq_refl) as (Hp & _ & _).
  rewrite Hp. reflexivity.
Defined.

(** The second reading is taken after the first in every run, and the
    duration is negative all the same when the wall clock was set back in
    between: here from 1.75 s to 1.5 s. *)
Lemma dispatch_duration_nonneg_counterexample :
  trace (invoke playback ok_pipeline summaries_request set_back)
  = [ev Time_time; ev (Call_next summaries_request); ev Time_time;
     ev (Print_line
           (spec_log_line (py "/summaries")
              (float_mul (float_sub t_start t_end) (float_of_Z 1000)) 200))]
  /\ float_leb (float_of_Z 0)
       (float_mul (float_sub t_start t_end) (float_of_Z 1000)) = false
  /\ format_2f (float_mul (float_sub t_start t_end) (float_of_Z 1000))
     = py "-250.00".
Proof. split; [reflexivity|]. split; vm_compute; reflexivity. Qed.
End MoreMiddlewareSamples.

(** ** Interleaved invocations of the interceptor *)

Section ConcurrentFacts.
Import Middleware Concurrent.
Context {Exn W : Type}.
Variable clock : W -> float * W.
Variable pipeline : Request -> World W -> (Exn + Response) * World W.

Lemma history_of_app i (log1 log2 : list (nat * answered (Exn := Exn) (E := event))) :
  history_of i (log1 ++ log2) = history_of i log1 ++ history_of i log2.
Proof. apply flat_map_app. Qed.

Lemma history_of_own i (l : list (answered (Exn := Exn) (E := event))) :
  history_of i (map (pair i) l) = l.
Proof.
  induction l as [|a l IH]; [reflexivity|].
  cbn [map history_of flat_map fst snd]. rewrite Nat.eqb_refl.
  cbn [app]. f_equal. exact IH.
Qed.

Lemma history_of_other i j (l : list (answered (Exn := Exn) (E := event))) :
  i <> j -> history_of j (map (pair i) l) = [].
Proof.
  intros Hij. induction l as [|a l IH]; [reflexivity|].
  cbn [map history_of flat_map fst snd].
  destruct (Nat.eqb_spec i j) as [E|_]; [contradiction|]. exact IH.
Qed.

(** A step of an invocation takes it to its next stage, and performs what
    that stage records. *)
Lemma step_stage request (s : stage) w :
  match step (handle clock pipeline) (rest_of request s) w with
  | None =>
      match s with Failed _ _ | Logged _ _ _ => True | _ => False end
  | Some (p', w', l) =>
      exists s', p' = rest_of request s'
                 /\ done_at request s' = done_at request s ++ l
                 /\ (turns_to s < turns_to s')%nat
  end.
Proof.
  destruct s as [|t0|t0 e|t0 response|t0 response t1|t0 response t1];
    cbn [rest_of step]; try exact I.
  - unfold dispatch, time_time, trigger. cbn [bind step handle].
    destruct (clock (env w)) as [t0 e1]. exists (Timed t0).
    split; [reflexivity|]. split; [reflexivity|]. cbn; lia.
  - cbn [handle]. destruct (pipeline request w) as [[e|response] w2].
    + exists (Failed t0 e). split; [reflexivity|]. split; [reflexivity|].
      cbn; lia.
    + exists (Called t0 response). split; [reflexivity|].
      split; [reflexivity|]. cbn; lia.
  - cbn [handle]. destruct (clock (env w)) as [t1 e3].
    exists (Measured t0 response t1). split; [reflexivity|].
    split; [reflexivity|]. cbn; lia.
  - cbn [handle]. exists (Logged t0 response t1). split; [reflexivity|].
    split; [reflexivity|]. cbn; lia.
Qed.

(** Every invocation is at some stage, with its own history that of the
    stage: this holds at the start and after every turn; and each turn of
    its own takes an invocation one stage further, until it has finished. *)
Lemma exec_stages (requests : list Request) schedule :
  forall pool w (log : list (nat * answered (Exn := Exn) (E := event)))
         (at_ : nat -> stage),
    (forall i request, requests !! i = Some request ->
       pool !! i = Some (rest_of request (at_ i))
       /\ history_of i log = done_at request (at_ i)) ->
    forall i request,
      requests !! i = Some request ->
      exists s,
        fst (fst (exec (handle clock pipeline) schedule pool w log)) !! i
        = Some (rest_of request s)
        /\ history_of i (snd (exec (handle clock pipeline) schedule pool w log))
           = done_at request s
        /\ (Nat.min 4 (turns_to (at_ i) + count_occ Nat.eq_dec schedule i)
            <= turns_to s)%nat.
Proof.
  induction schedule as [|j rest IH]; intros pool w log at_ Hinv i request Hi.
  - destruct (Hinv i request Hi) as (Hs & Hh). exists (at_ i).
    cbn [exec fst snd count_occ]. split; [exact Hs|]. split; [exact Hh|]. lia.
  - cbn [exec count_occ]. destruct (pool !! j) as [p|] eqn:Hp.
    2:{ destruct (IH pool w log at_ Hinv i request Hi) as (s & Hs & Hh & Ht).
        exists s. split; [exact Hs|]. split; [exact Hh|].
        destruct (Nat.eq_dec j i) as [->|Hji]; [|exact Ht].
        destruct (Hinv i request Hi) as (Hs' & _). congruence. }
    destruct (step (handle clock pipeline) p w) as [[[p' w'] l]|] eqn:Hstep.
    + destruct (requests !! j) as [req|] eqn:Hj.
      * destruct (Hinv j req Hj) as (Hsj & Hhj).
        rewrite Hp in Hsj. injection Hsj as ->.
        pose proof (step_stage req (at_ j) w) as Hst. rewrite Hstep in Hst.
        destruct Hst as (s1 & -> & Hd & Hlt).
        destruct (IH (<[j:=rest_of req s1]> pool) w' (log ++ map (pair j) l)
                    (fun k => if Nat.eq_dec k j then s1 else at_ k))
          with (i := i) (request := request) as (s & Hs & Hh & Ht);
          [|exact Hi|].
        { intros k reqk Hk. destruct (Nat.eq_dec k j) as [->|Hkj].
          - assert (reqk = req) as -> by congruence. split.
            + apply list_lookup_insert_eq. now apply lookup_lt_Some in Hp.
            + rewrite history_of_app, history_of_own, Hhj. symmetry. exact Hd.
          - destruct (Hinv k reqk Hk) as (Hsk & Hhk). split.
            + rewrite list_lookup_insert_ne by (intros ->; contradiction).
              exact Hsk.
            + rewrite history_of_app, history_of_other
                by (intros ->; contradiction).
              rewrite app_nil_r. exact Hhk. }
        exists s. split; [exact Hs|]. split; [exact Hh|].
        revert Ht.
        destruct (Nat.eq_dec i j) as [Eij|Hij];
          destruct (Nat.eq_dec j i) as [Eji|Hji]; try congruence;
          try subst j; lia.
      * (* a program beyond the requests: none of the invocations moves *)
        destruct (IH (<[j:=p']> pool) w' (log ++ map (pair j) l) at_)
          with (i := i) (request := request) as (s & Hs & Hh & Ht);
          [|exact Hi|].
        { intros k reqk Hk.
          assert (Hkj : j <> k) by (intros ->; congruence).
          destruct (Hinv k reqk Hk) as (Hsk & Hhk). split.
          - rewrite list_lookup_insert_ne by exact Hkj. exact Hsk.
          - rewrite history_of_app, history_of_other by exact Hkj.
            rewrite app_nil_r. exact Hhk. }
        exists s. split; [exact Hs|]. split; [exact Hh|].
        destruct (Nat.eq_dec j i) as [->|Hji]; [congruence|exact Ht].
    + destruct (IH pool w log at_ Hinv i request Hi) as (s & Hs & Hh & Ht).
      exists s. split; [exact Hs|]. split; [exact Hh|].
      destruct (Nat.eq_dec j i) as [->|Hji]; [|exact Ht].
      destruct (Hinv i request Hi) as (Hsi & _).
      rewrite Hp in Hsi. injection Hsi as ->.
      pose proof (step_stage request (at_ i) w) as Hst. rewrite Hstep in Hst.
      destruct (at_ i); try contradiction; cbn [turns_to] in *; lia.
Qed.

(** X13. Any number of invocations in flight over one world, their
    interactions interleaved in any order: no invocation ever prints more
    than one record; one that has returned has printed exactly one, whose
    duration is computed from the two clock readings that invocation itself
    obtained, with its own request's path and its own response's status;
    one that has raised has printed none. *)
Theorem interleaved_invocations_keep_their_own_timings
    (requests : list Request) schedule w :
  let r :=
    exec (handle clock pipeline) schedule
      (invocations (Exn := Exn) requests) w [] in
  forall i request, requests !! i = Some request ->
    (length (lines_of (history_of i (snd r))) <= 1)%nat
    /\ (forall response,
          fst (fst r) !! i = Some (Ret response) ->
          exists t0 t1,
            readings_of (history_of i (snd r)) = [t0; t1]
            /\ lines_of (history_of i (snd r))
               = [spec_log_line (path (url request))
                    (float_mul (float_sub t1 t0) (float_of_Z 1000))
                    (status_code response)])
    /\ (forall e,
          fst (fst r) !! i = Some (Raise e) ->
          lines_of (history_of i (snd r)) = []).
Proof.
  intros r i request Hi. subst r.
  destruct (exec_stages requests schedule (invocations requests) w []
              (fun _ => Started))
    with (i := i) (request := request) as (s & Hs & Hh & _); [|exact Hi|].
  { intros j req Hj. split; [|reflexivity].
    unfold invocations. rewrite list_lookup_fmap, Hj. reflexivity. }
  rewrite Hs, Hh. split; [|split].
  - destruct s; cbn; lia.
  - intros response Hr.
    destruct s as [|t0|t0 e|t0 resp|t0 resp t1|t0 resp t1];
      try discriminate Hr.
    injection Hr as ->. exists t0, t1. split; reflexivity.
  - intros e Hr.
    destruct s as [|t0|t0 e0|t0 resp|t0 resp t1|t0 resp t1];
      try discriminate Hr; reflexivity.
Qed.


(** A lone invocation given four turns leaves the result and the world of
    the sequential run. *)
Lemma lone_invocation_is_invoke request w :
  let r :=
    exec (handle clock pipeline) [0; 0; 0; 0]%nat
      (invocations (Exn := Exn) [request]) w [] in
  fst (fst r)
  = [match outcome (invoke clock pipeline request w) with
     | inr response => Ret response
     | inl e => Raise e
     end]
  /\ snd (fst r) = final (invoke clock pipeline request w).
Proof.
  rewrite invoke_eq. unfold invocations, dispatch, entered, time_time, trigger.
  cbn [map exec lookup list_lookup bind step handle].
  destruct (clock (env w)) as [t0 e1].
  cbn [insert list_insert lookup list_lookup step handle host_call_next
       trigger bind fst snd].
  destruct (pipeline request _) as [[e|response] w2].
  - split; reflexivity.
  - cbn [insert list_insert lookup list_lookup step handle bind fst snd].
    destruct (clock (env w2)) as [t1 e3]. split; reflexivity.
Qed.
End ConcurrentFacts.

Section ConcurrentSampleRuns.
Import Middleware Samples Concurrent ConcurrentSamples.

Lemma interleaved_invocations_keep_their_own_timings_witness :
  lines_of (history_of 1
              (snd (exec (handle playback ok_pipeline) turns
                      (invocations (Exn := string)
                         [summaries_request; health_request])
                      busy [])))
  = [py "[LOG] Path: /health | Execution Time: 250.00ms | Status: 200"].
Proof.
  destruct (interleaved_invocations_keep_their_own_timings playback
              ok_pipeline [summaries_request; health_request] turns busy
              1%nat health_request eq_refl) as (_ & Hret & _).
  destruct (Hret ok_response eq_refl) as (t0 & t1 & Hreadings & ->).
  injection Hreadings as <- <-. reflexivity.
Defined.

End ConcurrentSampleRuns.
